(** * rule2hook: rule conversion, hook validation and conflict detection

    A shallow embedding of the domain logic of the rule2hook MCP server
    ([rule2hook_mcp_server.py], [rule2hook_mcp_server_v2.py]) and of the
    companion command line validator ([validate-hooks.py]), with the
    properties of the specification proved over it.

    Text is modelled over the code points 0..255: a Python [str] is a Rocq
    [string], one [ascii] per code point.  The character classes below are
    Python's (Unicode) classes restricted to that range. *)

From Stdlib Require Import ZArith Lia Ascii String List Bool.
From stdpp Require Import base decidable option list strings gmap pretty.

Open Scope string_scope.
Open Scope list_scope.

(** ** Text primitives *)

Module Text.

Definition code (c : ascii) : nat := nat_of_ascii c.

Definition between (lo hi n : nat) : bool := (lo <=? n)%nat && (n <=? hi)%nat.

(** [str.lower()] per code point: A-Z and the Latin-1 capitals
    U+00C0..U+00DE (the multiplication sign U+00D7 apart) move by 32. *)
Definition lower_char (c : ascii) : ascii :=
  let n := code c in
  if between 65 90 n || (between 192 222 n && negb (n =? 215)%nat)
  then ascii_of_nat (n + 32) else c.

Fixpoint lower (s : string) : string :=
  match s with
  | EmptyString => EmptyString
  | String c s' => String (lower_char c) (lower s')
  end.

(** [str.isspace()] and the regular expression class [\s]. *)
Definition is_space (c : ascii) : bool :=
  let n := code c in
  between 9 13 n || between 28 32 n || (n =? 133)%nat || (n =? 160)%nat.

(** The regular expression class [\w]: alphanumeric code points and [_]. *)
Definition is_word (c : ascii) : bool :=
  let n := code c in
  between 48 57 n || between 65 90 n || (n =? 95)%nat || between 97 122 n
  || (n =? 170)%nat || (n =? 178)%nat || (n =? 179)%nat || (n =? 181)%nat
  || (n =? 185)%nat || (n =? 186)%nat || between 188 190 n
  || between 192 214 n || between 216 246 n || between 248 255 n.

(** [s.startswith(p)] *)
Fixpoint startswith (p s : string) : bool :=
  match p, s with
  | EmptyString, _ => true
  | String a p', String b s' => if Ascii.eqb a b then startswith p' s' else false
  | String _ _, EmptyString => false
  end.

(** [needle in hay] on strings: [needle] occurs at some position. *)
Fixpoint contains (needle hay : string) : bool :=
  startswith needle hay ||
  match hay with
  | EmptyString => false
  | String _ hay' => contains needle hay'
  end.

(** [any(word in text for word in words)] *)
Definition any_in (words : list string) (text : string) : bool :=
  existsb (fun w => contains w text) words.

(** [c in s] for a single character. *)
Fixpoint has_char (c : ascii) (s : string) : bool :=
  match s with
  | EmptyString => false
  | String b s' => Ascii.eqb c b || has_char c s'
  end.

(** The longest prefix of [s] whose characters satisfy [p], and the rest. *)
Fixpoint span (p : ascii -> bool) (s : string) : string * string :=
  match s with
  | EmptyString => (EmptyString, EmptyString)
  | String c s' =>
      if p c then let '(run, rest) := span p s' in (String c run, rest)
      else (EmptyString, s)
  end.

Fixpoint drop (n : nat) (s : string) : string :=
  match n, s with
  | O, _ => s
  | S n', String _ s' => drop n' s'
  | S _, EmptyString => EmptyString
  end.

(** [s[:n]] *)
Fixpoint take (n : nat) (s : string) : string :=
  match n, s with
  | S n', String c s' => String c (take n' s')
  | _, _ => EmptyString
  end.

Definition is_empty (s : string) : bool :=
  match s with EmptyString => true | String _ _ => false end.

Fixpoint lstrip (s : string) : string :=
  match s with
  | EmptyString => EmptyString
  | String c s' => if is_space c then lstrip s' else s
  end.

Fixpoint rstrip (s : string) : string :=
  match s with
  | EmptyString => EmptyString
  | String c s' =>
      match rstrip s' with
      | EmptyString => if is_space c then EmptyString else String c EmptyString
      | r => String c r
      end
  end.

(** [s.strip()] *)
Definition strip (s : string) : string := rstrip (lstrip s).

(** [re.split] on a one-character class: the pieces between separators,
    empty pieces included. *)
Fixpoint re_split (sep : ascii -> bool) (s : string) : list string :=
  match s with
  | EmptyString => [EmptyString]
  | String c s' =>
      if sep c then EmptyString :: re_split sep s'
      else match re_split sep s' with
           | piece :: pieces => String c piece :: pieces
           | [] => [String c EmptyString]
           end
  end.

(** [sep.join(parts)] *)
Fixpoint join (sep : string) (parts : list string) : string :=
  match parts with
  | [] => EmptyString
  | [p] => p
  | p :: ps => p +:+ sep +:+ join sep ps
  end.

End Text.

Import Text.

(** ** The keyword tables ([rule2hook_mcp_server.py], module level) *)

Record event_info := { keywords : list string; description : string }.

Definition HOOK_EVENTS : list (string * event_info) :=
  [ ("PreToolUse",
     {| keywords := ["before"; "check"; "validate"; "prevent"; "scan"; "verify"];
        description := "Runs BEFORE a tool is executed" |});
    ("PostToolUse",
     {| keywords := ["after"; "following"; "once done"; "when finished"];
        description := "Runs AFTER a tool completes successfully" |});
    ("Stop",
     {| keywords := ["finish"; "complete"; "end task"; "done"; "wrap up"];
        description := "Runs when Claude Code finishes responding" |});
    ("Notification",
     {| keywords := ["notify"; "alert"; "inform"; "message"];
        description := "Runs when Claude Code sends notifications" |}) ].


(** ** [_determine_event] *)

(** The inner loop [for keyword in info["keywords"]]: the first keyword found
    in the text returns [event] from the whole function. *)
Fixpoint scan_keywords (event : string) (kws : list string) (rule_lower : string)
  : option string :=
  match kws with
  | [] => None
  | keyword :: kws' =>
      if contains keyword rule_lower then Some event
      else scan_keywords event kws' rule_lower
  end.

(** The outer loop [for event, info in HOOK_EVENTS.items()], in the order the
    table is written. *)
Fixpoint scan_events (table : list (string * event_info)) (rule_lower : string)
  : option string :=
  match table with
  | [] => None
  | (event, info) :: table' =>
      match scan_keywords event (keywords info) rule_lower with
      | Some e => Some e
      | None => scan_events table' rule_lower
      end
  end.

Definition _determine_event (rule : string) : string :=
  let rule_lower := lower rule in
  match scan_events HOOK_EVENTS rule_lower with
  | Some event => event
  | None =>
      if any_in ["edit"; "modify"; "save"; "write"] rule_lower
      then "PostToolUse"
      else "Stop"
  end.

(** ** [_determine_tools] *)

(** [tool in tools] on a list of strings. *)
Definition list_in (x : string) (l : list string) : bool :=
  existsb (String.eqb x) l.

(** The loop that removes duplicates, [seen] being the set of tools already
    kept and [unique_tools] the list built so far. *)
Fixpoint unique_loop (tools : list string) (seen : gset string)
    (unique_tools : list string) : list string :=
  match tools with
  | [] => unique_tools
  | tool :: tools' =>
      if decide (tool ∈ seen) then unique_loop tools' seen unique_tools
      else unique_loop tools' ({[tool]} ∪ seen) (unique_tools ++ [tool])
  end.

Definition _determine_tools (rule : string) : list string :=
  let rule_lower := lower rule in
  let tools : list string := [] in
  let tools :=
    if any_in ["edit"; "modify"; "save"; "file"; "code"] rule_lower
    then tools ++ ["Edit"; "MultiEdit"; "Write"] else tools in
  let tools :=
    if any_in ["command"; "bash"; "shell"; "execute"; "run"] rule_lower
    then (if negb (list_in "bash" tools) then tools ++ ["Bash"] else tools)
    else tools in
  let tools :=
    if any_in ["search"; "find"; "grep"] rule_lower
    then tools ++ ["Grep"; "Glob"] else tools in
  let tools :=
    if contains "read" rule_lower then tools ++ ["Read"] else tools in
  let tools :=
    if any_in ["web"; "fetch"; "download"] rule_lower
    then tools ++ ["WebFetch"; "WebSearch"] else tools in
  let tools :=
    if contains "todo" rule_lower then tools ++ ["TodoRead"; "TodoWrite"] else tools in
  unique_loop tools ∅ [].

(** ** [_extract_command] *)

(** One attempt of the pattern [d([^d]+)d] at the start of [s], for a
    delimiter character [d]: the delimiter, the longest run of other
    characters (at least one), and the delimiter again.  The result is
    group 1.  A shorter run cannot be followed by the delimiter, so the
    longest run is the only candidate. *)
Definition match_delimited_at (d : ascii) (s : string) : option string :=
  match s with
  | String c s' =>
      if Ascii.eqb c d then
        let '(run, rest) := span (fun x => negb (Ascii.eqb x d)) s' in
        match run, rest with
        | String _ _, String _ _ => Some run
        | _, _ => None
        end
      else None
  | EmptyString => None
  end.

(** [re.search] of that pattern: the attempt at the leftmost position that
    succeeds. *)
Fixpoint search_delimited (d : ascii) (s : string) : option string :=
  match match_delimited_at d s with
  | Some g => Some g
  | None =>
      match s with
      | EmptyString => None
      | String _ s' => search_delimited d s'
      end
  end.

Definition backtick : ascii := ascii_of_nat 96.
Definition dquote : ascii := ascii_of_nat 34.

Definition VERBS : list string :=
  [ "run"; "execute"; "check"; "validate"; "format"; "scan" ].

(** The rest of the verb pattern after one alternative [verb]:
    [verb\s+(\S+)] at the start of [s]; the result is group 2. *)
Definition match_verb_object (verb s : string) : option string :=
  if startswith verb s then
    let '(spaces, rest) := span is_space (drop (String.length verb) s) in
    let '(token, _) := span (fun x => negb (is_space x)) rest in
    if is_empty spaces || is_empty token then None else Some token
  else None.

(** The alternation [(run|execute|...)], tried from left to right. *)
Fixpoint match_verbs_at (verbs : list string) (s : string) : option string :=
  match verbs with
  | [] => None
  | verb :: verbs' =>
      match match_verb_object verb s with
      | Some token => Some token
      | None => match_verbs_at verbs' s
      end
  end.

(** [\b] at the start of [s], [prev_word] telling whether the character
    before it is a word character (false at the start of the text). *)
Definition word_boundary (prev_word : bool) (s : string) : bool :=
  xorb prev_word
       match s with
       | EmptyString => false
       | String c _ => is_word c
       end.

(** [re.search] of the whole verb pattern. *)
Fixpoint search_verb (prev_word : bool) (s : string) : option string :=
  match (if word_boundary prev_word s then match_verbs_at VERBS s else None) with
  | Some token => Some token
  | None =>
      match s with
      | EmptyString => None
      | String c s' => search_verb (is_word c) s'
      end
  end.

(** The table of known phrases, from ["black" in rule_lower and ...] down to
    the secrets scan: the first test that holds returns its command. *)
Definition common_patterns (rule_lower : string) : option string :=
  if contains "black" rule_lower && contains "python" rule_lower
  then Some "black . --quiet 2>/dev/null || true"
  else if contains "prettier" rule_lower
  then Some "prettier --write . 2>/dev/null || true"
  else if contains "git status" rule_lower
  then Some "git status"
  else if contains "npm test" rule_lower
  then Some "npm test 2>/dev/null || echo 'Tests need attention'"
  else if contains "npm run lint" rule_lower
  then Some "npm run lint 2>/dev/null || true"
  else if contains "todo" rule_lower && contains "comment" rule_lower
  then Some "grep -r 'TODO' . 2>/dev/null || echo 'No TODOs found'"
  else if contains "secret" rule_lower || contains "credential" rule_lower
  then Some "git secrets --scan 2>/dev/null || echo 'No secrets found'"
  else None.

(** The last resort, [verb_match]: a verb and its object. *)
Definition verb_object (rule_lower : string) : option string :=
  match search_verb false rule_lower with
  | Some group2 => Some (group2 +:+ " 2>/dev/null || true")
  | None => None
  end.

(** [quote_match and any(char in quote_match.group(1) for char in ...)] *)
Definition qualifying_quote (rule : string) : option string :=
  match search_delimited dquote rule with
  | Some group1 =>
      if existsb (fun char => has_char char group1) [" "; "/"; "-"]%char
      then Some group1 else None
  | None => None
  end.

Definition _extract_command (rule : string) : option string :=
  let rule_lower := lower rule in
  match search_delimited backtick rule with
  | Some group1 => Some group1
  | None =>
      match qualifying_quote rule with
      | Some group1 => Some group1
      | None =>
          match common_patterns rule_lower with
          | Some command => Some command
          | None => verb_object rule_lower
          end
      end
  end.

(** ** Exceptions and results *)

(** The exceptions the modelled code can raise.  [ValidationError] carries
    its [message] attribute. *)
Inductive exn :=
| AttributeError
| IndexError
| KeyError
| TypeError
| FileNotFoundError
| ValidationError (message : string).

Inductive outcome (A : Type) :=
| Ok (a : A)
| Raise (e : exn).
Arguments Ok {A} a.
Arguments Raise {A} e.

#[global] Instance outcome_bind : MBind outcome :=
  fun A B k m =>
    match m with
    | Ok a => k a
    | Raise e => Raise e
    end.

#[global] Instance outcome_ret : MRet outcome := @Ok.

(** A [for] loop whose body threads a state and may raise. *)
Fixpoint for_each {A S : Type} (body : S -> A -> outcome S) (items : list A) (st : S)
  : outcome S :=
  match items with
  | [] => Ok st
  | x :: items' => st' ← body st x; for_each body items' st'
  end.

(** [enumerate(items, start)] *)
Fixpoint enumerate_from {A : Type} (start : nat) (items : list A) : list (nat * A) :=
  match items with
  | [] => []
  | x :: items' => (start, x) :: enumerate_from (S start) items'
  end.

Definition enumerate {A : Type} (items : list A) : list (nat * A) :=
  enumerate_from 0 items.

(** ** The rule converter *)

Record hook_entry := { he_type : string; he_command : string }.

(** A group carries a ["matcher"] key or not. *)
Record hook_group := { hg_matcher : option string; hg_hooks : list hook_entry }.

(** The dictionary under ["hooks"], in insertion order. *)
Definition hooks_table : Type := list (string * list hook_group).

Record converted_rule :=
  { cr_rule : string; cr_event : string; cr_tools : list string; cr_command : string }.

Record failed_rule := { fr_rule : string; fr_error : string }.

(** [rule_list]: the pieces between commas and semicolons, stripped, the
    empty ones dropped. *)
Definition is_separator (c : ascii) : bool :=
  Ascii.eqb c ","%char || Ascii.eqb c ";"%char.

Definition split_rules (rules : string) : list string :=
  filter (fun r => is_empty r = false) (map strip (re_split is_separator rules)).

(** [if event not in hooks: hooks[event] = []] and then
    [hooks[event].append(hook_group)]. *)
Fixpoint append_group (hooks : hooks_table) (event : string) (g : hook_group)
  : hooks_table :=
  match hooks with
  | [] => [(event, [g])]
  | (e, groups) :: hooks' =>
      if String.eqb e event then (e, groups ++ [g]) :: hooks'
      else (e, groups) :: append_group hooks' event g
  end.

(** [hooks[event]] *)
Fixpoint groups_of (hooks : hooks_table) (event : string) : option (list hook_group) :=
  match hooks with
  | [] => None
  | (e, groups) :: hooks' =>
      if String.eqb e event then Some groups else groups_of hooks' event
  end.

(** [if event != "Stop" and tools] chooses between a group with a matcher
    and one without. *)
Definition make_group (event : string) (tools : list string) (entry : hook_entry)
  : hook_group :=
  match negb (String.eqb event "Stop"), tools with
  | true, _ :: _ =>
      {| hg_matcher := Some (join "|" tools); hg_hooks := [entry] |}
  | _, _ => {| hg_matcher := None; hg_hooks := [entry] |}
  end.

(** [not command] for an optional string: [None] and the empty string. *)
Definition no_command (command : option string) : bool :=
  match command with
  | None => true
  | Some c => is_empty c
  end.

(** The first server, [rule2hook_mcp_server.py].  The [ctx] calls only send
    messages to the client and the ["json"] key is a rendering of
    [hooks_config]; both are left out. *)
Module V1.

Record result :=
  { status : string;
    message : string;
    hooks_config : option hooks_table;
    converted_rules : option (list converted_rule) }.

Definition convert_step (st : hooks_table * list converted_rule) (rule : string)
  : hooks_table * list converted_rule :=
  let '(hooks, converted) := st in
  let event := _determine_event rule in
  let tools := _determine_tools rule in
  match _extract_command rule with
  | Some command =>
      if is_empty command then st
      else
        let hook_entry := {| he_type := "command"; he_command := command |} in
        (append_group hooks event (make_group event tools hook_entry),
         converted ++ [ {| cr_rule := rule; cr_event := event;
                           cr_tools := tools; cr_command := command |} ])
  | None => st
  end.

Definition convert_rules (rules : string) (merge_with_existing : bool) : result :=
  match split_rules rules with
  | [] =>
      {| status := "error"; message := "No rules provided";
         hooks_config := None; converted_rules := None |}
  | rule_list =>
      let '(hooks, converted) := fold_left convert_step rule_list ([], []) in
      {| status := "success";
         message := "Successfully converted " +:+ pretty (length converted) +:+ " rules";
         hooks_config := Some hooks;
         converted_rules := Some converted |}
  end.

End V1.

(** [bounded_string] of [defensive.py]. *)
Definition bounded_string (value : string) (max_length : nat) (name : string)
  : outcome string :=
  if (max_length <? String.length value)%nat
  then Raise (ValidationError
                ("Parameter '" +:+ name +:+ "' exceeds maximum length of "
                 +:+ pretty max_length))
  else Ok value.

(** [str(e)] for the error [bounded_string] raises: the message and the
    details, [key=value] joined by commas. *)
Definition bounded_string_error (value : string) (max_length : nat) (name : string)
  : string :=
  "Parameter '" +:+ name +:+ "' exceeds maximum length of " +:+ pretty max_length
  +:+ " (parameter=" +:+ name
  +:+ ", actual_length=" +:+ pretty (String.length value)
  +:+ ", max_length=" +:+ pretty max_length
  +:+ ", preview="
  +:+ (if (50 <? String.length value)%nat then take 50 value +:+ "..." else value)
  +:+ ")".

(** The second server, [rule2hook_mcp_server_v2.py].  The file ends after
    [convert_rules]; the three helpers it calls are those of the first
    server, the only ones the repository defines.  Logging and the [ctx]
    calls are left out, as is the ["json"] key. *)
Module V2.

Definition MAX_RULE_LENGTH : nat := 500.
Definition MAX_COMMAND_LENGTH : nat := 1000.
Definition MAX_PATH_LENGTH : nat := 4096.

Record result :=
  { status : string;
    message : string;
    hooks_config : hooks_table;
    converted_rules : list converted_rule;
    failed_rules : list failed_rule }.

Record state :=
  { st_hooks : hooks_table;
    st_converted : list converted_rule;
    st_failed : list failed_rule }.

(** The list comprehension that builds [rule_list]: [i] counts every piece
    of the split, a piece that strips to nothing is skipped, and the first
    piece that is too long raises. *)
Fixpoint bounded_rules (pieces : list (nat * string)) : outcome (list string) :=
  match pieces with
  | [] => Ok []
  | (i, r) :: pieces' =>
      if is_empty (strip r) then bounded_rules pieces'
      else
        rule ← bounded_string (strip r) MAX_RULE_LENGTH ("rule_" +:+ pretty i);
        rules ← bounded_rules pieces';
        Ok (rule :: rules)
  end.

(** The body of [for rule in rule_list], with its [try]: a rule without a
    command raises [RuleParsingError], caught by the first handler; a
    command that is too long raises [ValidationError], caught by the
    second. *)
Definition convert_step (st : state) (rule : string) : state :=
  let event := _determine_event rule in
  let tools := _determine_tools rule in
  let command := _extract_command rule in
  match command with
  | Some command =>
      if is_empty command then
        {| st_hooks := st_hooks st; st_converted := st_converted st;
           st_failed := st_failed st ++
             [ {| fr_rule := rule;
                  fr_error := "Failed to parse rule '" +:+ rule
                              +:+ "': Could not determine command from rule" |} ] |}
      else
      match bounded_string command MAX_COMMAND_LENGTH "command" with
      | Ok command =>
          let hook_entry := {| he_type := "command"; he_command := command |} in
          {| st_hooks := append_group (st_hooks st) event
                           (make_group event tools hook_entry);
             st_converted := st_converted st ++
               [ {| cr_rule := rule; cr_event := event;
                    cr_tools := tools; cr_command := command |} ];
             st_failed := st_failed st |}
      | Raise _ =>
          {| st_hooks := st_hooks st; st_converted := st_converted st;
             st_failed := st_failed st ++
               [ {| fr_rule := rule;
                    fr_error := "Unexpected error: "
                      +:+ bounded_string_error command MAX_COMMAND_LENGTH "command" |} ] |}
      end
  | None =>
      {| st_hooks := st_hooks st; st_converted := st_converted st;
         st_failed := st_failed st ++
           [ {| fr_rule := rule;
                fr_error := "Failed to parse rule '" +:+ rule
                            +:+ "': Could not determine command from rule" |} ] |}
  end.

(** [# Determine overall status] *)
Definition overall (st : state) : result :=
  let n_ok := pretty (length (st_converted st)) in
  let n_failed := pretty (length (st_failed st)) in
  match st_converted st, st_failed st with
  | [], _ =>
      {| status := "error";
         message := "Failed to convert any rules. " +:+ n_failed +:+ " rules had errors.";
         hooks_config := st_hooks st; converted_rules := st_converted st;
         failed_rules := st_failed st |}
  | _ :: _, _ :: _ =>
      {| status := "partial";
         message := "Converted " +:+ n_ok +:+ " rules, " +:+ n_failed +:+ " failed.";
         hooks_config := st_hooks st; converted_rules := st_converted st;
         failed_rules := st_failed st |}
  | _ :: _, [] =>
      {| status := "success";
         message := "Successfully converted " +:+ n_ok +:+ " rules";
         hooks_config := st_hooks st; converted_rules := st_converted st;
         failed_rules := st_failed st |}
  end.

(** The function under its decorators: the two preconditions of
    [@require], the body, the third postcondition of [@ensure] (the first
    two ask for keys the record always has). *)
Definition convert_rules (rules : string) (merge_with_existing : bool)
  : outcome result :=
  if is_empty (strip rules) then
    Raise (ValidationError
             "Precondition failed in convert_rules: Parameter 'rules' must not be empty")
  else if negb (String.length rules <? MAX_RULE_LENGTH * 10)%nat then
    Raise (ValidationError "Precondition failed in convert_rules: Precondition 2")
  else
    rules_text ← bounded_string (strip rules) (MAX_RULE_LENGTH * 10) "rules";
    rule_list ← bounded_rules (enumerate (re_split is_separator rules_text));
    match rule_list with
    | [] => Raise (ValidationError "No valid rules found after parsing")
    | _ :: _ =>
        let st := fold_left convert_step rule_list
                    {| st_hooks := []; st_converted := []; st_failed := [] |} in
        let result := overall st in
        if list_in (status result) ["success"; "partial"; "error"]
        then Ok result
        else Raise (ValidationError
                      "Postcondition failed in convert_rules: Postcondition 3")
    end.

End V2.



(** ** The classifiers as the specification words them *)

(** Event Classifier: the first event of the table, in the order it is
    declared, one of whose keywords occurs in the lower-cased text; otherwise
    the secondary heuristic. *)
Definition classify (ruleText : string) : string :=
  let text := lower ruleText in
  match List.find (fun entry => any_in (keywords (snd entry)) text) HOOK_EVENTS with
  | Some (event, _) => event
  | None =>
      if any_in ["edit"; "modify"; "save"; "write"] text then "PostToolUse" else "Stop"
  end.

(** Tool Matcher: the keyword groups in declaration order, with the tools
    each one contributes. *)
Definition TOOL_GROUPS : list (list string * list string) :=
  [ (["edit"; "modify"; "save"; "file"; "code"], ["Edit"; "MultiEdit"; "Write"]);
    (["command"; "bash"; "shell"; "execute"; "run"], ["Bash"]);
    (["search"; "find"; "grep"], ["Grep"; "Glob"]);
    (["read"], ["Read"]);
    (["web"; "fetch"; "download"], ["WebFetch"; "WebSearch"]);
    (["todo"], ["TodoRead"; "TodoWrite"]) ].

Definition group_tools (text : string) (g : list string * list string) : list string :=
  if any_in (fst g) text then snd g else [].

Definition matchTools (ruleText : string) : list string :=
  flat_map (group_tools (lower ruleText)) TOOL_GROUPS.

(** ** Parsed JSON *)

(** What [json.load] returns: [None], a [bool], an [int], a [str], a [list]
    or a [dict], whose members are kept in insertion order.  Numbers are
    integers here. *)
#[warnings="-register-all"] Inductive json :=
| JNull
| JBool (b : bool)
| JNum (n : Z)
| JStr (s : string)
| JArr (items : list json)
| JObj (members : list (string * json)).

(** Truth value of a Python object in a condition. *)
Definition truthy (v : json) : bool :=
  match v with
  | JNull => false
  | JBool b => b
  | JNum n => negb (n =? 0)%Z
  | JStr s => negb (is_empty s)
  | JArr items => match items with [] => false | _ :: _ => true end
  | JObj members => match members with [] => false | _ :: _ => true end
  end.

(** [d[key]] if the key is there. *)
Fixpoint dict_get (key : string) (members : list (string * json)) : option json :=
  match members with
  | [] => None
  | (k, v) :: members' => if String.eqb k key then Some v else dict_get key members'
  end.

(** [v.get(key, default)]: only a [dict] has the method. *)
Definition py_get (v : json) (key : string) (dflt : json) : outcome json :=
  match v with
  | JObj members => Ok (default dflt (dict_get key members))
  | _ => Raise AttributeError
  end.

(** [v.items()] *)
Definition py_items (v : json) : outcome (list (string * json)) :=
  match v with
  | JObj members => Ok members
  | _ => Raise AttributeError
  end.

Fixpoint chars (s : string) : list json :=
  match s with
  | EmptyString => []
  | String c s' => JStr (String c EmptyString) :: chars s'
  end.

(** [for x in v]: the items of a list, the keys of a dict, the characters
    of a string; nothing else can be iterated. *)
Definition py_iter (v : json) : outcome (list json) :=
  match v with
  | JArr items => Ok items
  | JObj members => Ok (map (fun m => JStr (fst m)) members)
  | JStr s => Ok (chars s)
  | _ => Raise TypeError
  end.

(** [v[0]] *)
Definition subscript0 (v : json) : outcome json :=
  match v with
  | JArr [] => Raise IndexError
  | JArr (x :: _) => Ok x
  | JStr EmptyString => Raise IndexError
  | JStr (String c _) => Ok (JStr (String c EmptyString))
  | JObj _ => Raise KeyError
  | _ => Raise TypeError
  end.

(** ** [validate_hooks], from [# Validate structure] on *)

Module Validate.

(** The texts appended to [issues], with the values they print. *)
Inductive issue :=
| RootNotObject                                  (* Root element must be an object *)
| MissingHooksKey                                (* Missing 'hooks' key *)
| HooksNotObject                                 (* 'hooks' must be an object *)
| EventNotArray (event : string)                 (* Value of {event} must be an array *)
| GroupNotObject (event : string) (i : nat)      (* {event}[{i}] must be an object *)
| GroupMissingHooks (event : string) (i : nat)   (* {event}[{i}] missing 'hooks' array *)
| GroupHooksNotArray (event : string) (i : nat)  (* {event}[{i}].hooks must be an array *)
| HookNotObject (event : string) (i j : nat)     (* {event}[{i}].hooks[{j}] must be an object *)
| HookMissingCommand (event : string) (i j : nat). (* {event}[{i}].hooks[{j}] missing command *)

(** The texts appended to [warnings]. *)
Inductive warning :=
| UnknownEvent (event : string)                  (* Unknown event type: {event} *)
| UnexpectedType (event : string) (i j : nat) (hook_type : json).
    (* {event}[{i}].hooks[{j}] has type: {hook_type} (expected: command) *)

Record summary_entry :=
  { hs_event : string; hs_matcher : json; hs_command : json }.

(** The four accumulators of the function. *)
Record state :=
  { st_issues : list issue;
    st_warnings : list warning;
    st_hook_count : nat;
    st_hooks_summary : list summary_entry }.

(** The dictionary returned; the three early returns have no
    ["warnings"], ["hooks_summary"] and ["total_hooks"] keys. *)
Record result :=
  { status : string;
    message : string;
    issues : list issue;
    warnings : option (list warning);
    hooks_summary : option (list summary_entry);
    total_hooks : option nat }.

Definition valid_events : gset string :=
  {[ "PreToolUse"; "PostToolUse"; "Stop"; "Notification" ]}.

Definition add_issue (st : state) (x : issue) : state :=
  {| st_issues := st_issues st ++ [x]; st_warnings := st_warnings st;
     st_hook_count := st_hook_count st; st_hooks_summary := st_hooks_summary st |}.

Definition add_warning (st : state) (w : warning) : state :=
  {| st_issues := st_issues st; st_warnings := st_warnings st ++ [w];
     st_hook_count := st_hook_count st; st_hooks_summary := st_hooks_summary st |}.

Definition add_hook (st : state) (e : summary_entry) : state :=
  {| st_issues := st_issues st; st_warnings := st_warnings st;
     st_hook_count := S (st_hook_count st);
     st_hooks_summary := st_hooks_summary st ++ [e] |}.

(** [hook_type != "command"] *)
Definition is_command_type (hook_type : json) : bool :=
  match hook_type with
  | JStr s => String.eqb s "command"
  | _ => false
  end.

(** [command[:50] + "..." if len(command) > 50 else command], for a
    [command] that is truthy.  A number or [True] has no [len]; a long
    list cannot be added to a string; a long dict cannot be sliced
    (a [KeyError] from Python 3.12 on). *)
Definition shorten (command : json) : outcome json :=
  match command with
  | JStr s =>
      Ok (JStr (if (50 <? String.length s)%nat then take 50 s +:+ "..." else s))
  | JArr items =>
      if (50 <? length items)%nat then Raise TypeError else Ok command
  | JObj members =>
      if (50 <? length members)%nat then Raise TypeError else Ok command
  | _ => Raise TypeError
  end.

(** [matcher or "All tools"] *)
Definition or_all_tools (matcher : json) : json :=
  if truthy matcher then matcher else JStr "All tools".

(** The body of [for j, hook in enumerate(hook_list)]. *)
Definition validate_hook (event : string) (i : nat) (matcher : json)
    (st : state) (jh : nat * json) : outcome state :=
  let '(j, hook) := jh in
  match hook with
  | JObj members =>
      let hook_type := default JNull (dict_get "type" members) in
      let command := default JNull (dict_get "command" members) in
      let st :=
        if is_command_type hook_type then st
        else add_warning st (UnexpectedType event i j hook_type) in
      if truthy command then
        shown ← shorten command;
        Ok (add_hook st {| hs_event := event;
                           hs_matcher := or_all_tools matcher;
                           hs_command := shown |})
      else Ok (add_issue st (HookMissingCommand event i j))
  | _ => Ok (add_issue st (HookNotObject event i j))
  end.

(** The body of [for i, hook_group in enumerate(event_hooks)]. *)
Definition validate_group (event : string) (st : state) (ig : nat * json)
  : outcome state :=
  let '(i, hook_group) := ig in
  match hook_group with
  | JObj members =>
      let matcher := default (JStr "") (dict_get "matcher" members) in
      match dict_get "hooks" members with
      | None => Ok (add_issue st (GroupMissingHooks event i))
      | Some (JArr hook_list) =>
          for_each (validate_hook event i matcher) (enumerate hook_list) st
      | Some _ => Ok (add_issue st (GroupHooksNotArray event i))
      end
  | _ => Ok (add_issue st (GroupNotObject event i))
  end.

(** The body of [for event, event_hooks in hooks.items()]. *)
Definition validate_event (st : state) (entry : string * json) : outcome state :=
  let '(event, event_hooks) := entry in
  let st :=
    if decide (event ∈ valid_events) then st
    else add_warning st (UnknownEvent event) in
  match event_hooks with
  | JArr groups => for_each (validate_group event) (enumerate groups) st
  | _ => Ok (add_issue st (EventNotArray event))
  end.

Definition invalid (x : issue) : result :=
  {| status := "error"; message := "Invalid structure"; issues := [x];
     warnings := None; hooks_summary := None; total_hooks := None |}.

Definition report (st : state) : result :=
  {| status := match st_issues st with [] => "success" | _ :: _ => "error" end;
     message := "Found " +:+ pretty (st_hook_count st) +:+ " valid hooks";
     issues := st_issues st;
     warnings := Some (st_warnings st);
     hooks_summary := Some (st_hooks_summary st);
     total_hooks := Some (st_hook_count st) |}.

Definition validate_hooks (config : json) : outcome result :=
  match config with
  | JObj members =>
      match dict_get "hooks" members with
      | None => Ok (invalid MissingHooksKey)
      | Some (JObj hooks) =>
          st ← for_each validate_event hooks
                 {| st_issues := []; st_warnings := []; st_hook_count := 0;
                    st_hooks_summary := [] |};
          Ok (report st)
      | Some _ => Ok (invalid HooksNotObject)
      end
  | _ => Ok (invalid RootNotObject)
  end.

(** *** What a full traversal finds *)

(** The issues and warnings of one entry, one group, one event and of the
    whole ["hooks"] object, each entry of each group of each event being
    looked at. *)
Definition hook_issues (event : string) (i : nat) (jh : nat * json) : list issue :=
  match snd jh with
  | JObj members =>
      if truthy (default JNull (dict_get "command" members)) then []
      else [HookMissingCommand event i (fst jh)]
  | _ => [HookNotObject event i (fst jh)]
  end.

Definition hook_warnings (event : string) (i : nat) (jh : nat * json) : list warning :=
  match snd jh with
  | JObj members =>
      let hook_type := default JNull (dict_get "type" members) in
      if is_command_type hook_type then []
      else [UnexpectedType event i (fst jh) hook_type]
  | _ => []
  end.

Definition hook_summary (event : string) (matcher : json) (jh : nat * json)
  : list summary_entry :=
  match snd jh with
  | JObj members =>
      let command := default JNull (dict_get "command" members) in
      if truthy command then
        match shorten command with
        | Ok shown => [ {| hs_event := event; hs_matcher := or_all_tools matcher;
                           hs_command := shown |} ]
        | Raise _ => []
        end
      else []
  | _ => []
  end.

Definition group_issues (event : string) (ig : nat * json) : list issue :=
  match snd ig with
  | JObj members =>
      match dict_get "hooks" members with
      | None => [GroupMissingHooks event (fst ig)]
      | Some (JArr hook_list) =>
          flat_map (hook_issues event (fst ig)) (enumerate hook_list)
      | Some _ => [GroupHooksNotArray event (fst ig)]
      end
  | _ => [GroupNotObject event (fst ig)]
  end.

Definition group_warnings (event : string) (ig : nat * json) : list warning :=
  match snd ig with
  | JObj members =>
      match dict_get "hooks" members with
      | Some (JArr hook_list) =>
          flat_map (hook_warnings event (fst ig)) (enumerate hook_list)
      | _ => []
      end
  | _ => []
  end.

Definition group_summary (event : string) (ig : nat * json) : list summary_entry :=
  match snd ig with
  | JObj members =>
      match dict_get "hooks" members with
      | Some (JArr hook_list) =>
          flat_map (hook_summary event (default (JStr "") (dict_get "matcher" members)))
                   (enumerate hook_list)
      | _ => []
      end
  | _ => []
  end.

Definition event_issues (entry : string * json) : list issue :=
  match snd entry with
  | JArr groups => flat_map (group_issues (fst entry)) (enumerate groups)
  | _ => [EventNotArray (fst entry)]
  end.

Definition event_warnings (entry : string * json) : list warning :=
  (if decide (fst entry ∈ valid_events) then [] else [UnknownEvent (fst entry)])
  ++ match snd entry with
     | JArr groups => flat_map (group_warnings (fst entry)) (enumerate groups)
     | _ => []
     end.

Definition event_summary (entry : string * json) : list summary_entry :=
  match snd entry with
  | JArr groups => flat_map (group_summary (fst entry)) (enumerate groups)
  | _ => []
  end.

(** *** When the traversal raises *)

(** An entry is safe when its command, if truthy, can be shortened; a
    group, an event and a ["hooks"] object are safe when their entries are. *)
Definition safe_hook (hook : json) : bool :=
  match hook with
  | JObj members =>
      let command := default JNull (dict_get "command" members) in
      negb (truthy command)
      || match shorten command with Ok _ => true | Raise _ => false end
  | _ => true
  end.

Definition safe_group (hook_group : json) : bool :=
  match hook_group with
  | JObj members =>
      match dict_get "hooks" members with
      | Some (JArr hook_list) => forallb safe_hook hook_list
      | _ => true
      end
  | _ => true
  end.

Definition safe_event (entry : string * json) : bool :=
  match snd entry with
  | JArr groups => forallb safe_group groups
  | _ => true
  end.

(** [st'] is [st] with the given issues, warnings and summary entries
    appended, each summary entry counted. *)
Definition grows (st st' : state) (xs : list issue) (ws : list warning)
    (hs : list summary_entry) : Prop :=
  st_issues st' = st_issues st ++ xs
  ∧ st_warnings st' = st_warnings st ++ ws
  ∧ st_hooks_summary st' = st_hooks_summary st ++ hs
  ∧ st_hook_count st' = (st_hook_count st + length hs)%nat.

End Validate.

(** ** Hook documents as JSON *)

(** The JSON form of the configuration the converter builds, that is of a
    document of the HooksConfig shape: what [json.dumps] writes and
    [json.load] reads back. *)
Definition entry_json (e : hook_entry) : json :=
  JObj [("type", JStr (he_type e)); ("command", JStr (he_command e))].

Definition group_json (g : hook_group) : json :=
  JObj (match hg_matcher g with
        | Some m => [("matcher", JStr m)]
        | None => []
        end ++ [("hooks", JArr (map entry_json (hg_hooks g)))]).

Definition event_json (entry : string * list hook_group) : string * json :=
  (fst entry, JArr (map group_json (snd entry))).

Definition config_json (hooks : hooks_table) : json :=
  JObj [("hooks", JObj (map event_json hooks))].

(** ** [detect_conflicts], from the two parsed documents on *)

(** Keys of a dictionary: what a value hashes to.  [True] and [1] are the
    same key; a list or a dict cannot be hashed. *)
Inductive hkey :=
| KNone
| KStr (s : string)
| KNum (n : Z).

#[global] Instance hkey_eq_dec : EqDecision hkey.
Proof. solve_decision. Defined.

#[global] Instance hkey_countable : Countable hkey :=
  inj_countable'
    (fun k => match k with
              | KNone => inl ()
              | KStr s => inr (inl s)
              | KNum n => inr (inr n)
              end)
    (fun x => match x with
              | inl _ => KNone
              | inr (inl s) => KStr s
              | inr (inr n) => KNum n
              end)
    (fun k => match k with KNone | KStr _ | KNum _ => eq_refl end).

Definition hash_key (v : json) : outcome hkey :=
  match v with
  | JNull => Ok KNone
  | JBool b => Ok (KNum (if b then 1 else 0))
  | JNum n => Ok (KNum n)
  | JStr s => Ok (KStr s)
  | JArr _ | JObj _ => Raise TypeError
  end.

(** [hook_group.get("hooks", [{}])[0].get("command", "")] *)
Definition first_command (hook_group : json) : outcome json :=
  hooks ← py_get hook_group "hooks" (JArr [JObj []]);
  first ← subscript0 hooks;
  py_get first "command" (JStr "").

(** The body of [for hook_group in hooks_list] in the first loop, on the
    dictionary [existing_matchers[event]]. *)
Definition index_group (matchers : gmap hkey json) (hook_group : json)
  : outcome (gmap hkey json) :=
  matcher ← py_get hook_group "matcher" (JStr "");
  if truthy matcher then
    command ← first_command hook_group;
    key ← hash_key matcher;
    Ok (<[key := command]> matchers)
  else Ok matchers.

(** The body of [for event, hooks_list in existing_hooks.items()]:
    [existing_matchers[event]] starts empty. *)
Definition index_event (existing_matchers : gmap string (gmap hkey json))
    (entry : string * json) : outcome (gmap string (gmap hkey json)) :=
  let '(event, hooks_list) := entry in
  groups ← py_iter hooks_list;
  matchers ← for_each index_group groups ∅;
  Ok (<[event := matchers]> existing_matchers).

Module Conflicts.

Record conflict :=
  { event : string;
    matcher : json;
    existing_command : json;
    new_command : json }.

Record result :=
  { status : string;
    message : string;
    has_conflicts : bool;
    conflicts : list conflict }.

(** The body of [for new_hook_group in new_hooks_list]. *)
Definition check_group (event : string) (matchers : gmap hkey json)
    (conflicts : list conflict) (new_hook_group : json) : outcome (list conflict) :=
  new_matcher ← py_get new_hook_group "matcher" (JStr "");
  if truthy new_matcher then
    key ← hash_key new_matcher;
    match matchers !! key with
    | Some existing_command =>
        new_command ← first_command new_hook_group;
        Ok (conflicts ++ [ {| event := event; matcher := new_matcher;
                              existing_command := existing_command;
                              new_command := new_command |} ])
    | None => Ok conflicts
    end
  else Ok conflicts.

(** The body of [for event, new_hooks_list in new_hooks.items()]. *)
Definition check_event (existing_matchers : gmap string (gmap hkey json))
    (conflicts : list conflict) (entry : string * json) : outcome (list conflict) :=
  let '(event, new_hooks_list) := entry in
  match existing_matchers !! event with
  | Some matchers =>
      groups ← py_iter new_hooks_list;
      for_each (check_group event matchers) groups conflicts
  | None => Ok conflicts
  end.

Definition detect_conflicts (existing_config new_config : json) : outcome result :=
  existing_hooks ← py_get existing_config "hooks" (JObj []);
  new_hooks ← py_get new_config "hooks" (JObj []);
  existing_items ← py_items existing_hooks;
  existing_matchers ← for_each index_event existing_items ∅;
  new_items ← py_items new_hooks;
  conflicts ← for_each (check_event existing_matchers) new_items [];
  Ok {| status := "success";
        message := match conflicts with
                   | [] => "No conflicts found"
                   | _ :: _ => "Found " +:+ pretty (length conflicts) +:+ " conflicts"
                   end;
        has_conflicts := (0 <? length conflicts)%nat;
        conflicts := conflicts |}.

(** *** The conflicts as the specification words them *)

(** The command of the first hook entry of a group. *)
Definition firstCommandOfGroup (g : hook_group) : json :=
  match hg_hooks g with
  | e :: _ => JStr (he_command e)
  | [] => JStr ""
  end.

(** The groups of the existing document under [event] that carry the
    matcher [m]. *)
Definition groups_with (existing : hooks_table) (event m : string) : list hook_group :=
  filter (fun g => hg_matcher g = Some m) (default [] (groups_of existing event)).

(** The conflict a group [g] of the new document under [event] produces:
    one when its matcher is not empty and some group of the existing
    document under the same event has the same matcher (the last such group
    gives the existing command), none otherwise. *)
Definition conflict_of (existing : hooks_table) (event : string) (g : hook_group)
  : list conflict :=
  match hg_matcher g with
  | Some m =>
      if is_empty m then []
      else match last (groups_with existing event m) with
           | Some g' =>
               [ {| event := event; matcher := JStr m;
                    existing_command := firstCommandOfGroup g';
                    new_command := firstCommandOfGroup g |} ]
           | None => []
           end
  | None => []
  end.

Definition expected_conflicts (existing new : hooks_table) : list conflict :=
  flat_map (fun entry => flat_map (conflict_of existing (fst entry)) (snd entry)) new.

End Conflicts.

(** ** The command line validator, [validate-hooks.py] *)

Module Cli.

(** A path given on the command line: no such file, a file that is not
    JSON, or a file with its parsed content. *)
Inductive file_state :=
| Missing
| Malformed
| Parsed (config : json).

(** What printing a command evaluates, [command[:50]] and [len(command)]:
    a string or a list has both; a dict cannot be sliced, a number or
    [True] cannot be subscripted. *)
Definition show_command (command : json) : outcome unit :=
  match command with
  | JStr _ | JArr _ => Ok ()
  | _ => Raise TypeError
  end.

(** The body of [for j, hook in enumerate(hook_list)], on [hook_count]. *)
Definition file_hook (hook_count : nat) (jh : nat * json) : outcome nat :=
  match snd jh with
  | JObj members =>
      let command := default JNull (dict_get "command" members) in
      if truthy command then
        _ ← show_command command; Ok (S hook_count)
      else Ok hook_count
  | _ => Ok hook_count
  end.

(** The body of [for i, hook_group in enumerate(event_hooks)]: every
    failure is printed and the loop goes on. *)
Definition file_group (hook_count : nat) (ig : nat * json) : outcome nat :=
  match snd ig with
  | JObj members =>
      match dict_get "hooks" members with
      | None => Ok hook_count
      | Some (JArr hook_list) => for_each file_hook (enumerate hook_list) hook_count
      | Some _ => Ok hook_count
      end
  | _ => Ok hook_count
  end.

(** [for event, event_hooks in hooks.items()], which returns [False] at the
    first value that is not a list, and [True] after the last event. *)
Fixpoint file_events (hooks : list (string * json)) (hook_count : nat) : outcome bool :=
  match hooks with
  | [] => Ok true
  | (event, event_hooks) :: hooks' =>
      match event_hooks with
      | JArr groups =>
          hook_count' ← for_each file_group (enumerate groups) hook_count;
          file_events hooks' hook_count'
      | _ => Ok false
      end
  end.

Definition validate_hooks_file (file_path : file_state) : outcome bool :=
  match file_path with
  | Missing => Ok false
  | Malformed => Ok false
  | Parsed config =>
      match config with
      | JObj members =>
          match dict_get "hooks" members with
          | None => Ok false
          | Some (JObj hooks) => file_events hooks 0
          | Some _ => Ok false
          end
      | _ => Ok false
      end
  end.

(** [display_hooks_summary], on the content of the file. *)
Definition display_hook (_ : unit) (hook : json) : outcome unit :=
  _ ← py_get hook "command" (JStr ""); Ok ().

Definition display_group (_ : unit) (hook_group : json) : outcome unit :=
  _ ← py_get hook_group "matcher" (JStr "All tools");
  hooks ← py_get hook_group "hooks" (JArr []);
  hook_list ← py_iter hooks;
  for_each display_hook hook_list ().

Definition display_event (_ : unit) (entry : string * json) : outcome unit :=
  groups ← py_iter (snd entry);
  for_each display_group groups ().

Definition display_hooks_summary (config : json) : outcome unit :=
  hooks ← py_get config "hooks" (JObj []);
  items ← py_items hooks;
  for_each display_event items ().

(** The second loop of [detect_merge_conflicts], on [has_conflicts]. *)
Definition merge_check_group (matchers : gmap hkey json) (has_conflicts : bool)
    (new_hook_group : json) : outcome bool :=
  new_matcher ← py_get new_hook_group "matcher" (JStr "");
  if truthy new_matcher then
    key ← hash_key new_matcher;
    match matchers !! key with
    | Some existing_command =>
        _ ← first_command new_hook_group; Ok true
    | None => Ok has_conflicts
    end
  else Ok has_conflicts.

Definition merge_check_event (existing_matchers : gmap string (gmap hkey json))
    (has_conflicts : bool) (entry : string * json) : outcome bool :=
  let '(event, new_hooks_list) := entry in
  match existing_matchers !! event with
  | Some matchers =>
      groups ← py_iter new_hooks_list;
      for_each (merge_check_group matchers) groups has_conflicts
  | None => Ok has_conflicts
  end.

Definition detect_merge_conflicts (existing_path new_path : file_state) : outcome bool :=
  match existing_path with
  | Missing => Ok true
  | Malformed => Ok false
  | Parsed existing_config =>
      match new_path with
      | Missing => Raise FileNotFoundError
      | Malformed => Ok false
      | Parsed new_config =>
          existing_hooks ← py_get existing_config "hooks" (JObj []);
          new_hooks ← py_get new_config "hooks" (JObj []);
          existing_items ← py_items existing_hooks;
          existing_matchers ← for_each index_event existing_items ∅;
          new_items ← py_items new_hooks;
          has_conflicts ← for_each (merge_check_event existing_matchers) new_items false;
          Ok (negb has_conflicts)
      end
  end.

(** The exit status of the script: 1 on [sys.exit(1)] and on an exception
    that nothing catches, 0 otherwise. *)
Definition main_validate (hooks_file : file_state) : nat :=
  match validate_hooks_file hooks_file with
  | Ok true =>
      match hooks_file with
      | Parsed config =>
          match display_hooks_summary config with
          | Ok _ => 0
          | Raise _ => 1
          end
      | _ => 1
      end
  | Ok false => 1
  | Raise _ => 1
  end.

Definition main_merge (existing_hooks_file new_hook_fragment_file : file_state) : nat :=
  match detect_merge_conflicts existing_hooks_file new_hook_fragment_file with
  | Ok true => 0
  | Ok false => 1
  | Raise _ => 1
  end.

(** [__main__] on the files named after the script: two for the check
    before a merge, one for validation, anything else prints the usage. *)
Definition main (argv : list file_state) : nat :=
  match argv with
  | [existing_hooks_file; new_hook_fragment_file] =>
      main_merge existing_hooks_file new_hook_fragment_file
  | [hooks_file] => main_validate hooks_file
  | _ => 1
  end.

End Cli.

(** ** Predicates used by the further properties *)





(** * Properties *)

(** ** Event Classifier *)

Lemma scan_keywords_any event kws text :
  scan_keywords event kws text = if any_in kws text then Some event else None.
Proof.
  induction kws as [|k kws IH]; simpl; [reflexivity|].
  destruct (contains k text); simpl; [reflexivity|]. exact IH.
Qed.

Lemma scan_events_find table text :
  scan_events table text
  = fst <$> List.find (fun entry => any_in (keywords (snd entry)) text) table.
Proof.
  induction table as [|[event info] table IH]; simpl; [reflexivity|].
  rewrite scan_keywords_any. destruct (any_in (keywords info) text); simpl; auto.
Qed.


Lemma any_in_elem words text w :
  w ∈ words -> contains w text = true -> any_in words text = true.
Proof.
  intros Hin Hc. apply existsb_exists. exists w. split; [|exact Hc].
  by apply list_elem_of_In.
Qed.

(** C4: the Event Classifier is a total function into the four events; it
    returns the first event of the table, in declared order, one of whose
    keywords occurs in the lower-cased text, so that a rule with both
    "before" and "after" is a PreToolUse rule; with no keyword it returns
    PostToolUse on "edit", "modify", "save" or "write", and Stop otherwise. *)
Theorem C4_event_classifier (rule : string) :
  _determine_event rule ∈ ["PreToolUse"; "PostToolUse"; "Stop"; "Notification"]
  ∧ _determine_event rule = classify rule
  ∧ _determine_event rule =
      (let text := lower rule in
       if any_in ["before"; "check"; "validate"; "prevent"; "scan"; "verify"] text
       then "PreToolUse"
       else if any_in ["after"; "following"; "once done"; "when finished"] text
       then "PostToolUse"
       else if any_in ["finish"; "complete"; "end task"; "done"; "wrap up"] text
       then "Stop"
       else if any_in ["notify"; "alert"; "inform"; "message"] text
       then "Notification"
       else if any_in ["edit"; "modify"; "save"; "write"] text
       then "PostToolUse"
       else "Stop")
  ∧ (contains "before" (lower rule) = true ->
     contains "after" (lower rule) = true ->
     _determine_event rule = "PreToolUse").
Proof.
  assert (Hcascade : _determine_event rule =
      (let text := lower rule in
       if any_in ["before"; "check"; "validate"; "prevent"; "scan"; "verify"] text
       then "PreToolUse"
       else if any_in ["after"; "following"; "once done"; "when finished"] text
       then "PostToolUse"
       else if any_in ["finish"; "complete"; "end task"; "done"; "wrap up"] text
       then "Stop"
       else if any_in ["notify"; "alert"; "inform"; "message"] text
       then "Notification"
       else if any_in ["edit"; "modify"; "save"; "write"] text
       then "PostToolUse"
       else "Stop")).
  { unfold _determine_event, HOOK_EVENTS. cbv zeta.
    cbn [scan_events keywords]. rewrite !scan_keywords_any.
    repeat match goal with
           | |- context [if any_in ?k ?t then _ else _] => destruct (any_in k t)
           end; reflexivity. }
  split; [|split; [|split]].
  - rewrite Hcascade. cbv zeta.
    repeat match goal with
           | |- context [if any_in ?k ?t then _ else _] => destruct (any_in k t)
           end; set_solver.
  - unfold _determine_event, classify. cbv zeta.
    rewrite scan_events_find.
    destruct (List.find _ HOOK_EVENTS) as [[event info]|]; reflexivity.
  - exact Hcascade.
  - intros Hb _. rewrite Hcascade. cbv zeta.
    rewrite (any_in_elem _ _ "before"); [reflexivity | set_solver | exact Hb].
Qed.

Lemma C4_event_classifier_witness :
  _determine_event "Lint before commit and after editing" = "PreToolUse".
Proof.
  apply (C4_event_classifier "Lint before commit and after editing");
    vm_compute; reflexivity.
Defined.

(** ** Tool Matcher *)

Lemma unique_loop_NoDup tools seen acc :
  NoDup acc -> (forall x, x ∈ acc -> x ∈ seen) ->
  NoDup (unique_loop tools seen acc).
Proof.
  revert seen acc. induction tools as [|tool tools IH]; intros seen acc Hnd Hsub;
    simpl; [exact Hnd|].
  destruct (decide (tool ∈ seen)) as [Hin|Hnin].
  - apply IH; assumption.
  - apply IH.
    + apply NoDup_app. split; [exact Hnd|]. split.
      * intros x Hx Hx'. apply list_elem_of_singleton in Hx'. subst x. auto.
      * apply NoDup_singleton.
    + intros x Hx. apply elem_of_app in Hx as [Hx|Hx].
      * apply elem_of_union_r. auto.
      * apply list_elem_of_singleton in Hx. subst x.
        apply elem_of_union_l, elem_of_singleton. reflexivity.
Qed.

Lemma determine_tools_groups rule : _determine_tools rule = matchTools rule.
Proof.
  unfold _determine_tools, matchTools, TOOL_GROUPS, group_tools.
  cbv zeta. cbn [flat_map fst snd].
  replace (any_in ["read"] (lower rule)) with (contains "read" (lower rule))
    by (unfold any_in; simpl; rewrite orb_false_r; reflexivity).
  replace (any_in ["todo"] (lower rule)) with (contains "todo" (lower rule))
    by (unfold any_in; simpl; rewrite orb_false_r; reflexivity).
  destruct (any_in ["edit"; "modify"; "save"; "file"; "code"] (lower rule));
  destruct (any_in ["command"; "bash"; "shell"; "execute"; "run"] (lower rule));
  destruct (any_in ["search"; "find"; "grep"] (lower rule));
  destruct (contains "read" (lower rule));
  destruct (any_in ["web"; "fetch"; "download"] (lower rule));
  destruct (contains "todo" (lower rule));
  vm_compute; reflexivity.
Qed.

(** C7: the Tool Matcher returns a sequence without duplicates, the
    concatenation of what each keyword group contributes, in the declared
    order of the groups (file, command, search, read, web, todo), each group
    contributing when one of its keywords occurs; it returns
    Edit, MultiEdit, Write on the black rule and nothing when no group
    matches. *)
Theorem C7_tool_matcher (rule : string) :
  NoDup (_determine_tools rule)
  ∧ _determine_tools rule = flat_map (group_tools (lower rule)) TOOL_GROUPS
  ∧ (forall g, g ∈ TOOL_GROUPS ->
       any_in (fst g) (lower rule) = true ->
       forall tool, tool ∈ snd g -> tool ∈ _determine_tools rule)
  ∧ (forall tool, tool ∈ _determine_tools rule ->
       exists g, g ∈ TOOL_GROUPS ∧ any_in (fst g) (lower rule) = true ∧ tool ∈ snd g)
  ∧ ((forall g, g ∈ TOOL_GROUPS -> any_in (fst g) (lower rule) = false) ->
       _determine_tools rule = [])
  ∧ _determine_tools "Format Python files with black after editing"
    = ["Edit"; "MultiEdit"; "Write"].
Proof.
  split; [|split; [|split; [|split; [|split]]]].
  - unfold _determine_tools. cbv zeta. apply unique_loop_NoDup.
    + apply NoDup_nil_2.
    + intros x Hx. by apply elem_of_nil in Hx.
  - apply determine_tools_groups.
  - intros g Hg Hany tool Htool. rewrite determine_tools_groups.
    unfold matchTools. apply list_elem_of_In, in_flat_map.
    exists g. split; [by apply list_elem_of_In|].
    unfold group_tools. rewrite Hany. by apply list_elem_of_In.
  - intros tool Htool. rewrite determine_tools_groups in Htool.
    unfold matchTools in Htool. apply list_elem_of_In, in_flat_map in Htool.
    destruct Htool as [g [Hg Hin]]. exists g.
    split; [by apply list_elem_of_In|].
    unfold group_tools in Hin. destruct (any_in (fst g) (lower rule)).
    + split; [reflexivity | by apply list_elem_of_In].
    + destruct Hin.
  - intros Hnone. rewrite determine_tools_groups. unfold matchTools.
    assert (Hall : forall gs, (forall g, g ∈ gs -> any_in (fst g) (lower rule) = false) ->
                   flat_map (group_tools (lower rule)) gs = []).
    { induction gs as [|g gs IH]; intros H; simpl; [reflexivity|].
      unfold group_tools at 1. rewrite (H g) by left.
      simpl. apply IH. intros g' Hg'. apply H. by right. }
    apply Hall, Hnone.
  - vm_compute. reflexivity.
Qed.

Lemma C7_tool_matcher_witness :
  _determine_tools "Say hello" = [].
Proof.
  apply (C7_tool_matcher "Say hello").
  intros g Hg.
  repeat (apply elem_of_cons in Hg as [->|Hg]; [vm_compute; reflexivity|]).
  by apply elem_of_nil in Hg.
Defined.


(** ** Command Extractor *)

Lemma append_nil s : EmptyString +:+ s = s.
Proof. reflexivity. Qed.

Lemma append_cons a s t : String a s +:+ t = String a (s +:+ t).
Proof. reflexivity. Qed.

Lemma span_until d c rest :
  has_char d c = false ->
  span (fun x => negb (Ascii.eqb x d)) (c +:+ String d rest) = (c, String d rest).
Proof.
  induction c as [|a c IH].
  - intros _. rewrite append_nil. simpl. rewrite Ascii.eqb_refl. reflexivity.
  - intros H. simpl in H. apply orb_false_elim in H as [Ha Hc].
    rewrite append_cons. simpl. rewrite Ascii.eqb_sym, Ha. simpl.
    rewrite (IH Hc). reflexivity.
Qed.

Lemma search_delimited_eq d s :
  search_delimited d s =
  match match_delimited_at d s with
  | Some g => Some g
  | None =>
      match s with
      | EmptyString => None
      | String _ s' => search_delimited d s'
      end
  end.
Proof. destruct s; reflexivity. Qed.

Lemma search_delimited_first d pre c post :
  has_char d pre = false -> has_char d c = false -> c <> EmptyString ->
  search_delimited d (pre +:+ String d (c +:+ String d post)) = Some c.
Proof.
  intros Hpre Hc Hne. induction pre as [|a pre IH].
  - rewrite append_nil, search_delimited_eq.
    unfold match_delimited_at. rewrite Ascii.eqb_refl, (span_until _ _ _ Hc).
    destruct c; [contradiction|reflexivity].
  - simpl in Hpre. apply orb_false_elim in Hpre as [Ha Hpre].
    rewrite append_cons, search_delimited_eq.
    unfold match_delimited_at. rewrite Ascii.eqb_sym, Ha. apply IH, Hpre.
Qed.

(** C5: the Command Extractor applies its rules in strict priority and stops
    at the first that applies.  A backtick-delimited substring is returned
    verbatim whatever the rest of the rule says; then the qualifying quote,
    then the phrase table, then the verb and its object; a rule that matches
    none of them yields no command.  The build rule yields the text between
    its backticks and the black rule the command of the phrase table. *)
Theorem C5_command_extractor :
  (forall pre c post,
      has_char backtick pre = false -> has_char backtick c = false ->
      c <> EmptyString ->
      _extract_command (pre +:+ String backtick (c +:+ String backtick post)) = Some c)
  ∧ (forall rule c,
      search_delimited backtick rule = Some c -> _extract_command rule = Some c)
  ∧ (forall rule c,
      search_delimited backtick rule = None ->
      qualifying_quote rule = Some c -> _extract_command rule = Some c)
  ∧ (forall rule c,
      search_delimited backtick rule = None -> qualifying_quote rule = None ->
      common_patterns (lower rule) = Some c -> _extract_command rule = Some c)
  ∧ (forall rule,
      search_delimited backtick rule = None -> qualifying_quote rule = None ->
      common_patterns (lower rule) = None ->
      _extract_command rule = verb_object (lower rule))
  ∧ (forall rule,
      _extract_command rule = None <->
      search_delimited backtick rule = None ∧ qualifying_quote rule = None
      ∧ common_patterns (lower rule) = None ∧ search_verb false (lower rule) = None)
  ∧ _extract_command "Run `npm run build` after editing" = Some "npm run build"
  ∧ search_delimited backtick "Format Python files with black after editing" = None
  ∧ qualifying_quote "Format Python files with black after editing" = None
  ∧ common_patterns (lower "Format Python files with black after editing")
    = Some "black . --quiet 2>/dev/null || true"
  ∧ _extract_command "Format Python files with black after editing"
    = Some "black . --quiet 2>/dev/null || true"
  ∧ _extract_command "xyzzy plugh" = None.
Proof.
  repeat apply conj; try (vm_compute; reflexivity).
  - intros pre c post Hpre Hc Hne. unfold _extract_command. cbv zeta.
    rewrite (search_delimited_first _ _ _ _ Hpre Hc Hne). reflexivity.
  - intros rule c H. unfold _extract_command. cbv zeta. rewrite H. reflexivity.
  - intros rule c H1 H2. unfold _extract_command. cbv zeta. rewrite H1, H2.
    reflexivity.
  - intros rule c H1 H2 H3. unfold _extract_command. cbv zeta.
    rewrite H1, H2, H3. reflexivity.
  - intros rule H1 H2 H3. unfold _extract_command. cbv zeta.
    rewrite H1, H2, H3. reflexivity.
  - intros rule. unfold _extract_command, verb_object. cbv zeta. split.
    + destruct (search_delimited backtick rule); [discriminate|].
      destruct (qualifying_quote rule); [discriminate|].
      destruct (common_patterns (lower rule)); [discriminate|].
      destruct (search_verb false (lower rule)); [discriminate|].
      intros _. repeat split.
    + intros (H1 & H2 & H3 & H4). rewrite H1, H2, H3, H4. reflexivity.
Qed.

Lemma C5_command_extractor_witness :
  _extract_command "Run `prettier --write .` when done" = Some "prettier --write .".
Proof.
  apply (proj1 C5_command_extractor "Run " "prettier --write ." " when done");
    [vm_compute; reflexivity | vm_compute; reflexivity | discriminate].
Defined.

(** ** Rule Converter *)


(** *** The batch and its status *)

Lemma bind_Ok {A B} (a : A) (k : A -> outcome B) : Ok a ≫= k = k a.
Proof. reflexivity. Qed.

Lemma for_each_cons {A S} (body : S -> A -> outcome S) x items st :
  for_each body (x :: items) st = body st x ≫= fun st' => for_each body items st'.
Proof. reflexivity. Qed.

Lemma bind_Raise {A B} (e : exn) (k : A -> outcome B) : Raise e ≫= k = Raise e.
Proof. reflexivity. Qed.

Lemma bounded_string_ok value max_length name v :
  bounded_string value max_length name = Ok v -> v = value.
Proof.
  unfold bounded_string. destruct (max_length <? String.length value)%nat;
    [discriminate|]. intros [= <-]. reflexivity.
Qed.

Lemma bounded_string_fits value max_length name :
  (String.length value <= max_length)%nat ->
  bounded_string value max_length name = Ok value.
Proof.
  intros H. unfold bounded_string.
  destruct (Nat.ltb_spec max_length (String.length value)); [lia|reflexivity].
Qed.

Lemma bounded_rules_ok pieces : forall start rule_list,
  V2.bounded_rules (enumerate_from start pieces) = Ok rule_list ->
  rule_list = filter (fun r => is_empty r = false) (map strip pieces).
Proof.
  induction pieces as [|r pieces IH]; intros start rule_list; simpl.
  - intros [= <-]. reflexivity.
  - destruct (is_empty (strip r)) eqn:He.
    + intros H. rewrite filter_cons_False by (rewrite He; discriminate).
      eapply IH, H.
    + rewrite filter_cons_True by exact He.
      destruct (bounded_string (strip r) V2.MAX_RULE_LENGTH _) as [v|e] eqn:Hb;
        [|discriminate].
      apply bounded_string_ok in Hb. subst v. simpl.
      destruct (V2.bounded_rules (enumerate_from (S start) pieces)) as [l|e] eqn:Hr;
        [|discriminate].
      simpl. intros [= <-]. f_equal. eapply IH, Hr.
Qed.

Lemma bounded_rules_fit pieces : forall start,
  (forall r, r ∈ filter (fun r => is_empty r = false) (map strip pieces) ->
             (String.length r <= V2.MAX_RULE_LENGTH)%nat) ->
  V2.bounded_rules (enumerate_from start pieces)
  = Ok (filter (fun r => is_empty r = false) (map strip pieces)).
Proof.
  induction pieces as [|r pieces IH]; intros start Hfit; simpl; [reflexivity|].
  destruct (is_empty (strip r)) eqn:He.
  - rewrite filter_cons_False by (rewrite He; discriminate).
    apply IH. intros r' Hr'. apply Hfit. simpl.
    rewrite filter_cons_False by (rewrite He; discriminate). exact Hr'.
  - simpl in Hfit. rewrite filter_cons_True in Hfit by exact He.
    rewrite filter_cons_True by exact He.
    rewrite bounded_string_fits by (apply Hfit; left). simpl.
    rewrite IH by (intros r' Hr'; apply Hfit; right; exact Hr'). reflexivity.
Qed.



Lemma overall_fields st :
  V2.hooks_config (V2.overall st) = V2.st_hooks st
  ∧ V2.converted_rules (V2.overall st) = V2.st_converted st
  ∧ V2.failed_rules (V2.overall st) = V2.st_failed st
  ∧ V2.status (V2.overall st) =
      match V2.st_converted st, V2.st_failed st with
      | [], _ => "error"
      | _ :: _, _ :: _ => "partial"
      | _ :: _, [] => "success"
      end.
Proof.
  unfold V2.overall. cbv zeta.
  destruct (V2.st_converted st), (V2.st_failed st); simpl; auto.
Qed.

Lemma length_lstrip s : (String.length (lstrip s) <= String.length s)%nat.
Proof.
  induction s as [|c s IH]; simpl; [lia|].
  destruct (is_space c); simpl; lia.
Qed.

Lemma length_rstrip s : (String.length (rstrip s) <= String.length s)%nat.
Proof.
  induction s as [|c s IH]; simpl; [lia|].
  destruct (rstrip s); [destruct (is_space c)|]; simpl in *; lia.
Qed.

Lemma length_strip s : (String.length (strip s) <= String.length s)%nat.
Proof.
  unfold strip. pose proof (length_rstrip (lstrip s)). pose proof (length_lstrip s).
  lia.
Qed.

Lemma filter_all_nil {A} (P : A -> Prop) `{forall x, Decision (P x)} (l : list A) :
  (forall x, x ∈ l -> ~ P x) -> filter P l = [].
Proof.
  induction l as [|x l IH]; intros Hall; [reflexivity|].
  rewrite filter_cons_False by (apply Hall; left).
  apply IH. intros y Hy. apply Hall. by right.
Qed.





Lemma convert_rules_run rules merge_with_existing r :
  V2.convert_rules rules merge_with_existing = Ok r ->
  split_rules (strip rules) <> []
  ∧ r = V2.overall
          (fold_left V2.convert_step (split_rules (strip rules))
             {| V2.st_hooks := []; V2.st_converted := []; V2.st_failed := [] |}).
Proof.
  unfold V2.convert_rules.
  destruct (is_empty (strip rules)); [discriminate|].
  destruct (negb _); [discriminate|].
  destruct (bounded_string (strip rules) _ _) as [rules_text|e] eqn:Hb;
    [|discriminate].
  apply bounded_string_ok in Hb. subst rules_text. simpl.
  destruct (V2.bounded_rules _) as [rule_list|e] eqn:Hr; [|discriminate].
  apply bounded_rules_ok in Hr. fold (split_rules (strip rules)) in Hr.
  subst rule_list. simpl.
  destruct (split_rules (strip rules)) as [|rule rule_list] eqn:Hs; [discriminate|].
  cbv zeta.
  match goal with
  | |- (if ?b then _ else _) = _ -> _ => destruct b
  end; [|discriminate].
  intros [= <-]. split; [discriminate|reflexivity].
Qed.



(** The first server has no partial status: the same batch reports success
    and the rule without a command leaves no record. *)
Lemma first_server_batch (merge_with_existing : bool) :
  exists c,
    V1.status (V1.convert_rules "Format Python files after editing, xyzzy plugh"
                                merge_with_existing) = "success"
    ∧ V1.converted_rules (V1.convert_rules "Format Python files after editing, xyzzy plugh"
                                           merge_with_existing) = Some [c]
    ∧ cr_rule c = "Format Python files after editing".
Proof. eexists. repeat apply conj; vm_compute; reflexivity. Qed.

(** ** Hook Validator *)

Section Accumulation.
Import Validate.

Lemma grows_refl st : grows st st [] [] [].
Proof. unfold grows. rewrite !app_nil_r. simpl. repeat split; lia. Qed.

Lemma grows_trans st1 st2 st3 xs ws hs xs' ws' hs' :
  grows st1 st2 xs ws hs -> grows st2 st3 xs' ws' hs' ->
  grows st1 st3 (xs ++ xs') (ws ++ ws') (hs ++ hs').
Proof.
  intros (A1 & A2 & A3 & A4) (B1 & B2 & B3 & B4). unfold grows.
  rewrite B1, B2, B3, B4, A1, A2, A3, A4, !app_assoc, length_app.
  repeat split; lia.
Qed.

Lemma for_each_grows {A} (body : state -> A -> outcome state)
    (fx : A -> list issue) (fw : A -> list warning) (fs : A -> list summary_entry) :
  (forall st x st', body st x = Ok st' -> grows st st' (fx x) (fw x) (fs x)) ->
  forall items st st',
    for_each body items st = Ok st' ->
    grows st st' (flat_map fx items) (flat_map fw items) (flat_map fs items).
Proof.
  intros Hbody. induction items as [|x items IH]; intros st st'; simpl.
  - intros [= <-]. apply grows_refl.
  - destruct (body st x) as [st1|e] eqn:Hb; [|discriminate].
    rewrite bind_Ok. intros Hrest.
    eapply grows_trans; [apply Hbody, Hb|apply IH, Hrest].
Qed.

Lemma add_issue_grows st x : grows st (add_issue st x) [x] [] [].
Proof. unfold grows, add_issue. simpl. rewrite !app_nil_r. repeat split; lia. Qed.

Lemma add_warning_grows st w : grows st (add_warning st w) [] [w] [].
Proof. unfold grows, add_warning. simpl. rewrite !app_nil_r. repeat split; lia. Qed.

Lemma add_hook_grows st e : grows st (add_hook st e) [] [] [e].
Proof. unfold grows, add_hook. simpl. rewrite !app_nil_r. repeat split; lia. Qed.

Lemma validate_hook_grows event i matcher st jh st' :
  validate_hook event i matcher st jh = Ok st' ->
  grows st st' (hook_issues event i jh) (hook_warnings event i jh)
        (hook_summary event matcher jh).
Proof.
  destruct jh as [j hook]. unfold validate_hook, hook_issues, hook_warnings, hook_summary.
  cbn [fst snd].
  destruct hook as [| | | | |members];
    try (intros [= <-]; apply add_issue_grows).
  cbv zeta.
  set (command := default JNull (dict_get "command" members)).
  set (hook_type := default JNull (dict_get "type" members)).
  assert (Hw : grows st
                 (if is_command_type hook_type then st
                  else add_warning st (UnexpectedType event i j hook_type))
                 [] (if is_command_type hook_type then []
                     else [UnexpectedType event i j hook_type]) []).
  { destruct (is_command_type hook_type); [apply grows_refl|apply add_warning_grows]. }
  destruct (truthy command).
  - destruct (shorten command) as [shown|e]; [|discriminate].
    rewrite bind_Ok. intros [= <-].
    pose proof (grows_trans _ _ _ _ _ _ _ _ _ Hw (add_hook_grows _
      {| hs_event := event; hs_matcher := or_all_tools matcher; hs_command := shown |}))
      as H.
    rewrite !app_nil_r in H. exact H.
  - intros [= <-].
    pose proof (grows_trans _ _ _ _ _ _ _ _ _ Hw
                  (add_issue_grows _ (HookMissingCommand event i j))) as H.
    rewrite !app_nil_r in H. exact H.
Qed.

Lemma validate_group_grows event st ig st' :
  validate_group event st ig = Ok st' ->
  grows st st' (group_issues event ig) (group_warnings event ig)
        (group_summary event ig).
Proof.
  destruct ig as [i hook_group].
  unfold validate_group, group_issues, group_warnings, group_summary. cbn [fst snd].
  destruct hook_group as [| | | | |members];
    try (intros [= <-]; apply add_issue_grows).
  cbv zeta. destruct (dict_get "hooks" members) as [[| | | |hook_list|]|];
    try (intros [= <-]; apply add_issue_grows).
  apply for_each_grows. intros. by apply validate_hook_grows.
Qed.

Lemma validate_event_grows st entry st' :
  validate_event st entry = Ok st' ->
  grows st st' (event_issues entry) (event_warnings entry) (event_summary entry).
Proof.
  destruct entry as [event event_hooks].
  unfold validate_event, event_issues, event_warnings, event_summary. cbn [fst snd].
  cbv zeta.
  set (st1 := if decide (event ∈ valid_events) then st
              else add_warning st (UnknownEvent event)).
  assert (Hw : grows st st1 []
                 (if decide (event ∈ valid_events) then [] else [UnknownEvent event]) []).
  { subst st1. destruct (decide (event ∈ valid_events));
      [apply grows_refl|apply add_warning_grows]. }
  intros Hrun.
  assert (Hrest : grows st1 st'
            match event_hooks with
            | JArr groups => flat_map (group_issues event) (enumerate groups)
            | _ => [EventNotArray event]
            end
            match event_hooks with
            | JArr groups => flat_map (group_warnings event) (enumerate groups)
            | _ => []
            end
            match event_hooks with
            | JArr groups => flat_map (group_summary event) (enumerate groups)
            | _ => []
            end).
  { destruct event_hooks as [| | | |groups|];
      try (injection Hrun as <-; apply add_issue_grows).
    revert Hrun. apply for_each_grows. intros. by apply validate_group_grows. }
  exact (grows_trans _ _ _ _ _ _ _ _ _ Hw Hrest).
Qed.

Lemma validate_hooks_report members hooks r :
  dict_get "hooks" members = Some (JObj hooks) ->
  validate_hooks (JObj members) = Ok r ->
  issues r = flat_map event_issues hooks
  ∧ warnings r = Some (flat_map event_warnings hooks)
  ∧ hooks_summary r = Some (flat_map event_summary hooks)
  ∧ total_hooks r = Some (length (flat_map event_summary hooks))
  ∧ status r = match issues r with [] => "success" | _ :: _ => "error" end.
Proof.
  intros Hh. unfold validate_hooks. rewrite Hh.
  destruct (for_each validate_event hooks _) as [st|e] eqn:Hrun; [|discriminate].
  rewrite bind_Ok. intros [= <-].
  apply (for_each_grows _ _ _ _ validate_event_grows) in Hrun
    as (H1 & H2 & H3 & H4).
  simpl in H1, H2, H3, H4. unfold report. simpl.
  rewrite H1, H2, H3, H4. auto.
Qed.

End Accumulation.

Section ValidatorProperties.
Import Validate.

Lemma enumerate_from_lookup {A} (items : list A) : forall start i x,
  items !! i = Some x -> ((start + i)%nat, x) ∈ enumerate_from start items.
Proof.
  induction items as [|y items IH]; intros start i x; [discriminate|].
  destruct i as [|i]; simpl.
  - intros [= ->]. rewrite Nat.add_0_r. left.
  - intros H. right. replace (start + S i)%nat with (S start + i)%nat by lia.
    apply IH, H.
Qed.

Lemma enumerate_lookup {A} (items : list A) i x :
  items !! i = Some x -> (i, x) ∈ enumerate items.
Proof. apply (enumerate_from_lookup items 0). Qed.

Lemma elem_of_flat_map {A B} (f : A -> list B) (l : list A) x y :
  x ∈ l -> y ∈ f x -> y ∈ flat_map f l.
Proof.
  intros Hx Hy. apply list_elem_of_In, in_flat_map. exists x.
  split; by apply list_elem_of_In.
Qed.

(** Every entry of a document of the HooksConfig shape has a string for a
    command, so the validator returns on it. *)
Lemma for_each_total {A S} (body : S -> A -> outcome S) (items : list A) :
  (forall st x, x ∈ items -> exists st', body st x = Ok st') ->
  forall st, exists st', for_each body items st = Ok st'.
Proof.
  induction items as [|x items IH]; intros Hbody st; simpl; [eauto|].
  destruct (Hbody st x) as [st1 H1]; [left|]. rewrite H1, bind_Ok.
  apply IH. intros st2 y Hy. apply Hbody. by right.
Qed.

Lemma enumerate_from_elem {A} (items : list A) : forall start i x,
  (i, x) ∈ enumerate_from start items -> x ∈ items.
Proof.
  induction items as [|y items IH]; intros start i x; simpl.
  - intros H. by apply elem_of_nil in H.
  - intros H. apply elem_of_cons in H as [[= -> ->]|H]; [left|right].
    eapply IH, H.
Qed.

Lemma validate_event_total (hooks : hooks_table) st entry :
  entry ∈ map event_json hooks -> exists st', validate_event st entry = Ok st'.
Proof.
  destruct entry as [event v]. intros Hin.
  apply list_elem_of_fmap in Hin as ([ev groups] & [= -> ->] & _).
  unfold validate_event. cbv zeta. cbn [event_json fst snd].
  apply for_each_total. intros st1 [i g] Hg.
  apply enumerate_from_elem, list_elem_of_fmap in Hg as (grp & -> & _).
  unfold validate_group, group_json.
  destruct (hg_matcher grp) as [m|]; cbn [app dict_get String.eqb Ascii.eqb Bool.eqb];
    cbv zeta; apply for_each_total; intros st2 [j h] Hh;
    apply enumerate_from_elem, list_elem_of_fmap in Hh as (e & -> & _);
    unfold validate_hook, entry_json;
    cbn [dict_get String.eqb Ascii.eqb Bool.eqb default from_option id]; cbv zeta;
    (destruct (truthy (JStr (he_command e))); [|eauto]);
    unfold shorten; rewrite bind_Ok; eauto.
Qed.

Lemma validate_hooks_total (hooks : hooks_table) :
  exists r, validate_hooks (config_json hooks) = Ok r.
Proof.
  unfold validate_hooks, config_json. cbn [dict_get String.eqb Ascii.eqb Bool.eqb].
  match goal with
  | |- context [for_each validate_event ?l ?st0] =>
      destruct (for_each_total validate_event l
                  (fun s x => validate_event_total hooks s x) st0) as [st' H]
  end.
  rewrite H, bind_Ok. eauto.
Qed.

(** *** When the validator returns *)

Lemma for_each_raise_inv {A S} (body : S -> A -> outcome S) (items : list A) e :
  (forall st x e', body st x = Raise e' -> e' = e) ->
  forall st e', for_each body items st = Raise e' -> e' = e.
Proof.
  intros Hbody. induction items as [|x items IH]; intros st e'; [discriminate|].
  rewrite for_each_cons. destruct (body st x) as [st1|e1] eqn:Hb.
  - rewrite bind_Ok. apply IH.
  - rewrite bind_Raise. intros [= <-]. eapply Hbody, Hb.
Qed.

Lemma for_each_raises {A S} (body : S -> A -> outcome S) (items : list A) e x :
  (forall st y e', body st y = Raise e' -> e' = e) ->
  x ∈ items -> (forall st, body st x = Raise e) ->
  forall st, for_each body items st = Raise e.
Proof.
  intros Hbody Hin Hx. induction items as [|y items IH]; intros st.
  - by apply elem_of_nil in Hin.
  - rewrite for_each_cons. apply elem_of_cons in Hin as [<-|Hin].
    + rewrite Hx. reflexivity.
    + destruct (body st y) as [st1|e1] eqn:Hb.
      * rewrite bind_Ok. apply IH, Hin.
      * rewrite bind_Raise. f_equal. eapply Hbody, Hb.
Qed.

Lemma forallb_false_elem {A} (f : A -> bool) (l : list A) :
  forallb f l = false -> exists x, x ∈ l ∧ f x = false.
Proof.
  induction l as [|y l IH]; simpl; [discriminate|].
  destruct (f y) eqn:Hy; simpl.
  - intros H. destruct (IH H) as (x & Hin & Hx). exists x. split; [by right|exact Hx].
  - intros _. exists y. split; [left|exact Hy].
Qed.

Lemma forallb_true_elem {A} (f : A -> bool) (l : list A) x :
  forallb f l = true -> x ∈ l -> f x = true.
Proof.
  intros H Hin. apply list_elem_of_In in Hin.
  exact (proj1 (forallb_forall f l) H x Hin).
Qed.

Lemma enumerate_from_index {A} (items : list A) x : forall start,
  x ∈ items -> exists i, (i, x) ∈ enumerate_from start items.
Proof.
  induction items as [|y items IH]; intros start Hin.
  - by apply elem_of_nil in Hin.
  - apply elem_of_cons in Hin as [->|Hin].
    + exists start. left.
    + destruct (IH (S start) Hin) as [i Hi]. exists i. by right.
Qed.

Lemma shorten_raise command e : shorten command = Raise e -> e = TypeError.
Proof.
  destruct command; simpl; try congruence.
  - destruct (50 <? length items)%nat; congruence.
  - destruct (50 <? length members)%nat; congruence.
Qed.

Lemma validate_hook_run event i matcher st j hook :
  if safe_hook hook
  then exists st', validate_hook event i matcher st (j, hook) = Ok st'
  else validate_hook event i matcher st (j, hook) = Raise TypeError.
Proof.
  unfold safe_hook, validate_hook. destruct hook; eauto. cbv zeta.
  destruct (truthy (default JNull (dict_get "command" members))); simpl; [|eauto].
  destruct (shorten _) as [shown|e] eqn:Hs.
  - rewrite bind_Ok. eauto.
  - rewrite bind_Raise. f_equal. eapply shorten_raise, Hs.
Qed.

Lemma validate_hook_raise event i matcher st jh e :
  validate_hook event i matcher st jh = Raise e -> e = TypeError.
Proof.
  destruct jh as [j hook]. pose proof (validate_hook_run event i matcher st j hook) as H.
  destruct (safe_hook hook); [destruct H as [st' ->]; discriminate|].
  rewrite H. congruence.
Qed.

Lemma validate_group_run event st i hook_group :
  if safe_group hook_group
  then exists st', validate_group event st (i, hook_group) = Ok st'
  else validate_group event st (i, hook_group) = Raise TypeError.
Proof.
  unfold safe_group, validate_group. destruct hook_group; eauto. cbv zeta.
  destruct (dict_get "hooks" members) as [[| | | |hook_list|]|]; eauto.
  destruct (forallb safe_hook hook_list) eqn:Hall.
  - apply for_each_total. intros st1 [j hook] Hin.
    apply enumerate_from_elem in Hin.
    pose proof (validate_hook_run event i
                  (default (JStr "") (dict_get "matcher" members)) st1 j hook) as H.
    rewrite (forallb_true_elem _ _ _ Hall Hin) in H. exact H.
  - apply forallb_false_elem in Hall as (hook & Hin & Hbad).
    destruct (enumerate_from_index _ _ 0%nat Hin) as [j Hj].
    apply (for_each_raises _ _ _ (j, hook)).
    + intros st1 jh e. apply validate_hook_raise.
    + exact Hj.
    + intros st1.
      pose proof (validate_hook_run event i
                    (default (JStr "") (dict_get "matcher" members)) st1 j hook) as H.
      rewrite Hbad in H. exact H.
Qed.

Lemma validate_group_raise event st ig e :
  validate_group event st ig = Raise e -> e = TypeError.
Proof.
  destruct ig as [i g]. pose proof (validate_group_run event st i g) as H.
  destruct (safe_group g); [destruct H as [st' ->]; discriminate|].
  rewrite H. congruence.
Qed.

Lemma validate_event_run st entry :
  if safe_event entry
  then exists st', validate_event st entry = Ok st'
  else validate_event st entry = Raise TypeError.
Proof.
  destruct entry as [event v]. unfold safe_event, validate_event. cbn [snd]. cbv zeta.
  destruct v as [| | | |groups|]; eauto.
  destruct (forallb safe_group groups) eqn:Hall.
  - apply for_each_total. intros st1 [i g] Hin.
    apply enumerate_from_elem in Hin.
    pose proof (validate_group_run event st1 i g) as H.
    rewrite (forallb_true_elem _ _ _ Hall Hin) in H. exact H.
  - apply forallb_false_elem in Hall as (g & Hin & Hbad).
    destruct (enumerate_from_index _ _ 0%nat Hin) as [i Hi].
    apply (for_each_raises _ _ _ (i, g)).
    + intros st1 ig e. apply validate_group_raise.
    + exact Hi.
    + intros st1. pose proof (validate_group_run event st1 i g) as H.
      rewrite Hbad in H. exact H.
Qed.

Lemma validate_event_raise st entry e :
  validate_event st entry = Raise e -> e = TypeError.
Proof.
  pose proof (validate_event_run st entry) as H.
  destruct (safe_event entry); [destruct H as [st' ->]; discriminate|].
  rewrite H. congruence.
Qed.

Lemma validate_hooks_run members hooks :
  dict_get "hooks" members = Some (JObj hooks) ->
  if forallb safe_event hooks
  then exists r, validate_hooks (JObj members) = Ok r
  else validate_hooks (JObj members) = Raise TypeError.
Proof.
  intros Hh. unfold validate_hooks. rewrite Hh.
  destruct (forallb safe_event hooks) eqn:Hall.
  - match goal with
    | |- context [for_each validate_event hooks ?st0] =>
        destruct (for_each_total validate_event hooks) with (st := st0) as [st' Hrun]
    end.
    + intros st entry Hin. pose proof (validate_event_run st entry) as H.
      rewrite (forallb_true_elem _ _ _ Hall Hin) in H. exact H.
    + rewrite Hrun, bind_Ok. eauto.
  - apply forallb_false_elem in Hall as (entry & Hin & Hbad).
    rewrite (for_each_raises validate_event hooks TypeError entry); [reflexivity| | |].
    + intros st y e. apply validate_event_raise.
    + exact Hin.
    + intros st. pose proof (validate_event_run st entry) as H.
      rewrite Hbad in H. exact H.
Qed.

(** C6: on a document that passes the top-level checks, the issues reported
    are those of every event, group and entry, none skipped, and the status
    is success exactly when there is none, whatever the warnings; an event
    with an empty array adds no issue and an event whose value is not an
    array adds one.  The validator returns on every document of the
    HooksConfig shape. *)
Theorem C6_validate_status :
  (forall members hooks r,
      dict_get "hooks" members = Some (JObj hooks) ->
      validate_hooks (JObj members) = Ok r ->
      issues r = flat_map event_issues hooks
      ∧ warnings r = Some (flat_map event_warnings hooks)
      ∧ (status r = "success" <-> issues r = [])
      ∧ (status r = "error" <-> issues r <> []))
  ∧ (forall event, event_issues (event, JArr []) = [])
  ∧ (forall event v,
      (forall groups, v <> JArr groups) -> event_issues (event, v) = [EventNotArray event])
  ∧ (forall members hooks event v r,
      dict_get "hooks" members = Some (JObj hooks) ->
      (event, v) ∈ hooks -> (forall groups, v <> JArr groups) ->
      validate_hooks (JObj members) = Ok r ->
      EventNotArray event ∈ issues r ∧ status r = "error")
  ∧ (forall hooks : hooks_table, exists r, validate_hooks (config_json hooks) = Ok r)
  ∧ (exists r,
      validate_hooks (JObj [("hooks", JObj [("PostToolUse", JArr [])])]) = Ok r
      ∧ status r = "success" ∧ issues r = [] ∧ warnings r = Some [])
  ∧ (exists r,
      validate_hooks (JObj [("hooks", JObj [("InvalidEvent", JStr "not-an-array")])]) = Ok r
      ∧ status r = "error" ∧ issues r = [EventNotArray "InvalidEvent"])
  ∧ (exists r,
      validate_hooks (JObj [("hooks", JObj [("SessionStart", JArr [])])]) = Ok r
      ∧ status r = "success" ∧ warnings r = Some [UnknownEvent "SessionStart"]).
Proof.
  assert (Hstatus : forall members hooks r,
      dict_get "hooks" members = Some (JObj hooks) ->
      validate_hooks (JObj members) = Ok r ->
      issues r = flat_map event_issues hooks
      ∧ warnings r = Some (flat_map event_warnings hooks)
      ∧ (status r = "success" <-> issues r = [])
      ∧ (status r = "error" <-> issues r <> [])).
  { intros members hooks r Hh Hrun.
    destruct (validate_hooks_report _ _ _ Hh Hrun) as (H1 & H2 & _ & _ & H5).
    split; [exact H1|]. split; [exact H2|]. rewrite H5.
    destruct (issues r); split; split; intros; congruence. }
  split; [exact Hstatus|]. split; [reflexivity|]. split; [|split; [|split]].
  - intros event v Hv. unfold event_issues. cbn [fst snd].
    destruct v; try reflexivity. by destruct (Hv items).
  - intros members hooks event v r Hh Hin Hv Hrun.
    destruct (Hstatus _ _ _ Hh Hrun) as (H1 & _ & _ & H4).
    assert (Hmem : EventNotArray event ∈ issues r).
    { rewrite H1. apply (elem_of_flat_map _ _ (event, v)); [exact Hin|].
      unfold event_issues. cbn [fst snd]. destruct v; try left. by destruct (Hv items). }
    split; [exact Hmem|]. apply H4. intros E. rewrite E in Hmem.
    by apply elem_of_nil in Hmem.
  - exact validate_hooks_total.
  - repeat split; eexists; repeat apply conj; vm_compute; reflexivity.
Qed.

Lemma C6_validate_status_witness :
  exists r,
    validate_hooks
      (JObj [("hooks", JObj [("Stop", JArr []); ("PreToolUse", JNum 3)])]) = Ok r
    ∧ EventNotArray "PreToolUse" ∈ issues r ∧ status r = "error".
Proof.
  eexists. split; [vm_compute; reflexivity|].
  apply (proj1 (proj2 (proj2 (proj2 C6_validate_status)))
           [("hooks", JObj [("Stop", JArr []); ("PreToolUse", JNum 3)])]
           [("Stop", JArr []); ("PreToolUse", JNum 3)] "PreToolUse" (JNum 3)).
  - vm_compute. reflexivity.
  - right. left.
  - intros groups. discriminate.
  - vm_compute. reflexivity.
Defined.

End ValidatorProperties.

Section TypeWarning.
Import Validate.

(** C10: an entry without a "type" key gets the type warning (the absent
    value, [None], is not "command"), just as an entry whose type is
    present and wrong; when its command is a non-empty string the entry is
    still counted in total_hooks and listed in the summary. *)
Theorem C10_missing_type_warning
    (members hooks : list (string * json)) (event : string) (groups : list json)
    (i : nat) (gm : list (string * json)) (hook_list : list json)
    (j : nat) (hm : list (string * json)) (r : result) :
  dict_get "hooks" members = Some (JObj hooks) ->
  (event, JArr groups) ∈ hooks ->
  groups !! i = Some (JObj gm) ->
  dict_get "hooks" gm = Some (JArr hook_list) ->
  hook_list !! j = Some (JObj hm) ->
  validate_hooks (JObj members) = Ok r ->
  (dict_get "type" hm = None ->
   exists ws, warnings r = Some ws ∧ UnexpectedType event i j JNull ∈ ws)
  ∧ (forall t, dict_get "type" hm = Some t -> is_command_type t = false ->
     exists ws, warnings r = Some ws ∧ UnexpectedType event i j t ∈ ws)
  ∧ (forall c, dict_get "command" hm = Some (JStr c) -> c <> EmptyString ->
     exists hs,
       hooks_summary r = Some hs
       ∧ total_hooks r = Some (length hs)
       ∧ {| hs_event := event;
            hs_matcher := or_all_tools (default (JStr "") (dict_get "matcher" gm));
            hs_command :=
              JStr (if (50 <? String.length c)%nat then take 50 c +:+ "..." else c) |}
         ∈ hs).
Proof.
  intros Hh Hev Hg Hhooks Hhook Hrun.
  destruct (validate_hooks_report _ _ _ Hh Hrun) as (_ & Hw & Hs & Hn & _).
  apply enumerate_lookup in Hg, Hhook.
  assert (Hwarn : forall t, default JNull (dict_get "type" hm) = t ->
            is_command_type t = false ->
            UnexpectedType event i j t ∈ flat_map event_warnings hooks).
  { intros t Ht Hc.
    apply (elem_of_flat_map _ _ (event, JArr groups)); [exact Hev|].
    unfold event_warnings. cbn [fst snd]. apply elem_of_app. right.
    apply (elem_of_flat_map _ _ (i, JObj gm)); [exact Hg|].
    unfold group_warnings. cbn [fst snd]. rewrite Hhooks.
    apply (elem_of_flat_map _ _ (j, JObj hm)); [exact Hhook|].
    unfold hook_warnings. cbn [fst snd]. cbv zeta. rewrite Ht, Hc. left. }
  split; [|split].
  - intros Ht. eexists. split; [exact Hw|]. apply Hwarn; [|reflexivity].
    rewrite Ht. reflexivity.
  - intros t Ht Hc. eexists. split; [exact Hw|]. apply Hwarn; [|exact Hc].
    rewrite Ht. reflexivity.
  - intros c Hc Hne. eexists. split; [exact Hs|]. split; [exact Hn|].
    apply (elem_of_flat_map _ _ (event, JArr groups)); [exact Hev|].
    unfold event_summary. cbn [fst snd].
    apply (elem_of_flat_map _ _ (i, JObj gm)); [exact Hg|].
    unfold group_summary. cbn [fst snd]. rewrite Hhooks.
    apply (elem_of_flat_map _ _ (j, JObj hm)); [exact Hhook|].
    unfold hook_summary. cbn [fst snd]. cbv zeta. rewrite Hc.
    cbn [default from_option id truthy shorten].
    destruct c; [contradiction|]. cbn [is_empty negb]. left.
Qed.

Lemma C10_missing_type_warning_witness :
  exists r,
    validate_hooks
      (JObj [("hooks",
              JObj [("Stop", JArr [JObj [("hooks",
                       JArr [JObj [("command", JStr "git status")]])]])])]) = Ok r
    ∧ status r = "success"
    ∧ (exists ws, warnings r = Some ws ∧ UnexpectedType "Stop" 0 0 JNull ∈ ws)
    ∧ (exists hs,
        hooks_summary r = Some hs
        ∧ total_hooks r = Some (length hs)
        ∧ {| hs_event := "Stop"; hs_matcher := JStr "All tools";
             hs_command := JStr "git status" |} ∈ hs).
Proof.
  eexists. split; [vm_compute; reflexivity|]. split; [reflexivity|].
  pose proof (C10_missing_type_warning
    [("hooks", JObj [("Stop", JArr [JObj [("hooks",
                       JArr [JObj [("command", JStr "git status")]])]])])]
    [("Stop", JArr [JObj [("hooks", JArr [JObj [("command", JStr "git status")]])]])]
    "Stop" [JObj [("hooks", JArr [JObj [("command", JStr "git status")]])]]
    0 [("hooks", JArr [JObj [("command", JStr "git status")]])]
    [JObj [("command", JStr "git status")]]
    0 [("command", JStr "git status")] _
    eq_refl ltac:(left) eq_refl eq_refl eq_refl eq_refl) as (H1 & _ & H3).
  split.
  - apply H1. reflexivity.
  - apply (H3 "git status"); [reflexivity|discriminate].
Defined.

End TypeWarning.

(** ** Conflict Detector *)

Section TypedDocuments.
Import Conflicts.

Ltac get_key := cbn [dict_get app String.eqb Ascii.eqb Bool.eqb default from_option id].

Lemma group_matcher (g : hook_group) :
  py_get (group_json g) "matcher" (JStr "")
  = Ok (JStr (default EmptyString (hg_matcher g))).
Proof. unfold group_json, py_get. destruct (hg_matcher g); get_key; reflexivity. Qed.

Lemma group_first_command (g : hook_group) :
  first_command (group_json g)
  = match hg_hooks g with
    | e :: _ => Ok (JStr (he_command e))
    | [] => Raise IndexError
    end.
Proof.
  unfold first_command, group_json, py_get.
  destruct (hg_matcher g); get_key; rewrite bind_Ok;
    destruct (hg_hooks g) as [|e es]; reflexivity.
Qed.

Lemma index_group_typed (matchers : gmap hkey json) (g : hook_group) :
  index_group matchers (group_json g)
  = match hg_matcher g with
    | Some m =>
        if is_empty m then Ok matchers
        else match hg_hooks g with
             | e :: _ => Ok (<[KStr m := JStr (he_command e)]> matchers)
             | [] => Raise IndexError
             end
    | None => Ok matchers
    end.
Proof.
  unfold index_group. rewrite group_matcher, bind_Ok, group_first_command.
  destruct (hg_matcher g) as [m|]; simpl; [|reflexivity].
  destruct (is_empty m); simpl; [reflexivity|].
  destruct (hg_hooks g); reflexivity.
Qed.

Lemma check_group_typed (ev : string) (matchers : gmap hkey json)
    (cs : list conflict) (g : hook_group) :
  check_group ev matchers cs (group_json g)
  = match hg_matcher g with
    | Some m =>
        if is_empty m then Ok cs
        else match matchers !! KStr m with
             | Some existing =>
                 match hg_hooks g with
                 | e :: _ =>
                     Ok (cs ++ [ {| event := ev; matcher := JStr m;
                                    existing_command := existing;
                                    new_command := JStr (he_command e) |} ])
                 | [] => Raise IndexError
                 end
             | None => Ok cs
             end
    | None => Ok cs
    end.
Proof.
  unfold check_group. rewrite group_matcher, bind_Ok, group_first_command.
  destruct (hg_matcher g) as [m|]; simpl; [|reflexivity].
  destruct (is_empty m); simpl; [reflexivity|].
  destruct (matchers !! KStr m); [|reflexivity].
  destruct (hg_hooks g); reflexivity.
Qed.

(** The first loop on the groups of one event. *)
Lemma index_groups_lookup (gs : list hook_group) : forall matchers inner m,
  for_each index_group (map group_json gs) matchers = Ok inner ->
  is_empty m = false ->
  inner !! KStr m
  = match last (filter (fun g => hg_matcher g = Some m) gs) with
    | Some g' => Some (firstCommandOfGroup g')
    | None => matchers !! KStr m
    end.
Proof.
  induction gs as [|g gs IH]; intros matchers inner m; simpl.
  - intros [= <-] _. reflexivity.
  - rewrite index_group_typed. intros Hrun Hm.
    destruct (decide (hg_matcher g = Some m)) as [Hg|Hg].
    + rewrite filter_cons_True by exact Hg. rewrite Hg, Hm in Hrun.
      destruct (hg_hooks g) as [|e es] eqn:Hh; [discriminate|].
      rewrite bind_Ok in Hrun. rewrite last_cons, (IH _ _ _ Hrun Hm).
      destruct (last (filter _ gs)); [reflexivity|].
      rewrite lookup_insert_eq. unfold firstCommandOfGroup. rewrite Hh. reflexivity.
    + rewrite filter_cons_False by exact Hg.
      destruct (hg_matcher g) as [m'|] eqn:Hm';
        [destruct (is_empty m'); [|destruct (hg_hooks g); [discriminate|]]|];
        rewrite bind_Ok in Hrun; rewrite (IH _ _ _ Hrun Hm);
        destruct (last (filter _ gs)); try reflexivity.
      apply lookup_insert_ne. congruence.
Qed.

Lemma index_groups_hooks (gs : list hook_group) : forall matchers inner g m,
  for_each index_group (map group_json gs) matchers = Ok inner ->
  g ∈ gs -> hg_matcher g = Some m -> is_empty m = false -> hg_hooks g <> [].
Proof.
  induction gs as [|g0 gs IH]; intros matchers inner g m; simpl.
  - intros _ Hin. by apply elem_of_nil in Hin.
  - rewrite index_group_typed. intros Hrun Hin Hg Hm.
    apply elem_of_cons in Hin as [->|Hin].
    + rewrite Hg, Hm in Hrun. destruct (hg_hooks g0); [discriminate|discriminate].
    + destruct (hg_matcher g0) as [m'|];
        [destruct (is_empty m'); [|destruct (hg_hooks g0); [discriminate|]]|];
        rewrite bind_Ok in Hrun; eapply IH; eauto.
Qed.

Lemma index_groups_raise (gs : list hook_group) : forall matchers e,
  for_each index_group (map group_json gs) matchers = Raise e -> e = IndexError.
Proof.
  induction gs as [|g gs IH]; intros matchers e; simpl; [discriminate|].
  rewrite index_group_typed.
  destruct (hg_matcher g) as [m'|];
    [destruct (is_empty m'); [|destruct (hg_hooks g)]|];
    rewrite ?bind_Ok, ?bind_Raise; try apply IH. congruence.
Qed.

Lemma groups_of_absent (hooks : hooks_table) ev :
  ev ∉ map fst hooks -> groups_of hooks ev = None.
Proof.
  induction hooks as [|[e gs] hooks IH]; simpl; [reflexivity|].
  intros Hnin. destruct (String.eqb_spec e ev) as [->|Hne].
  - destruct Hnin. left.
  - apply IH. intros Hin. apply Hnin. by right.
Qed.

Lemma groups_of_elem (hooks : hooks_table) ev gs :
  groups_of hooks ev = Some gs -> (ev, gs) ∈ hooks.
Proof.
  induction hooks as [|[e gs'] hooks IH]; simpl; [discriminate|].
  destruct (String.eqb_spec e ev) as [->|Hne].
  - intros [= ->]. left.
  - intros H. right. auto.
Qed.

Lemma index_event_typed (existing_matchers : gmap string (gmap hkey json))
    (entry : string * list hook_group) :
  index_event existing_matchers (event_json entry)
  = (matchers ← for_each index_group (map group_json (snd entry)) ∅;
     Ok (<[fst entry := matchers]> existing_matchers)).
Proof. destruct entry as [ev gs]. reflexivity. Qed.

(** The first loop on the whole existing document. *)
Lemma index_events_lookup (existing : hooks_table) : forall acc idx ev,
  for_each index_event (map event_json existing) acc = Ok idx ->
  NoDup (map fst existing) ->
  match groups_of existing ev with
  | Some gs =>
      exists inner, idx !! ev = Some inner
                    ∧ for_each index_group (map group_json gs) ∅ = Ok inner
  | None => idx !! ev = acc !! ev
  end.
Proof.
  induction existing as [|[e gs] existing IH]; intros acc idx ev.
  - simpl. intros [= <-] _. reflexivity.
  - rewrite map_cons, for_each_cons, index_event_typed. cbn [fst snd map groups_of].
    destruct (for_each index_group (map group_json gs) ∅) as [inner|x] eqn:Hin;
      [|discriminate].
    rewrite !bind_Ok. intros Hrun Hnd. apply NoDup_cons in Hnd as [Hfresh Hnd].
    pose proof (IH _ _ ev Hrun Hnd) as Hev.
    destruct (String.eqb_spec e ev) as [->|Hne].
    + rewrite (groups_of_absent _ _ Hfresh) in Hev. rewrite lookup_insert_eq in Hev.
      eauto.
    + destruct (groups_of existing ev); [exact Hev|].
      rewrite lookup_insert_ne in Hev by exact Hne. exact Hev.
Qed.

Lemma index_events_hooks (existing : hooks_table) : forall acc idx ev gs g m,
  for_each index_event (map event_json existing) acc = Ok idx ->
  (ev, gs) ∈ existing -> g ∈ gs ->
  hg_matcher g = Some m -> is_empty m = false -> hg_hooks g <> [].
Proof.
  induction existing as [|[e gs0] existing IH]; intros acc idx ev gs g m.
  - intros _ Hin. by apply elem_of_nil in Hin.
  - rewrite map_cons, for_each_cons, index_event_typed. cbn [fst snd].
    destruct (for_each index_group (map group_json gs0) ∅) as [inner|x] eqn:Hin;
      [|discriminate].
    rewrite !bind_Ok. intros Hrun Hmem Hg Hm He.
    apply elem_of_cons in Hmem as [[= -> ->]|Hmem].
    + eapply index_groups_hooks; eauto.
    + eapply IH; eauto.
Qed.

Lemma index_events_raise (existing : hooks_table) : forall acc e,
  for_each index_event (map event_json existing) acc = Raise e -> e = IndexError.
Proof.
  induction existing as [|[ev gs] existing IH]; intros acc e; [discriminate|].
  rewrite map_cons, for_each_cons, index_event_typed. cbn [fst snd].
  destruct (for_each index_group (map group_json gs) ∅) as [inner|x] eqn:Hin.
  - rewrite !bind_Ok. apply IH.
  - rewrite !bind_Raise. intros [= <-]. eapply index_groups_raise, Hin.
Qed.

Lemma is_empty_false m : m <> EmptyString -> is_empty m = false.
Proof. destruct m; [contradiction|reflexivity]. Qed.

Lemma conflict_of_absent (existing : hooks_table) ev g :
  groups_of existing ev = None -> conflict_of existing ev g = [].
Proof.
  intros Hnone. unfold conflict_of, groups_with. rewrite Hnone. simpl.
  destruct (hg_matcher g) as [m|]; [|reflexivity].
  destruct (is_empty m); reflexivity.
Qed.

(** The second loop on the groups of one event of the new document. *)
Lemma check_groups_typed (existing : hooks_table) ev (inner : gmap hkey json)
    (gs : list hook_group) : forall cs cs',
  (forall m, is_empty m = false ->
             inner !! KStr m = firstCommandOfGroup <$> last (groups_with existing ev m)) ->
  for_each (check_group ev inner) (map group_json gs) cs = Ok cs' ->
  cs' = cs ++ flat_map (conflict_of existing ev) gs.
Proof.
  induction gs as [|g gs IH]; intros cs cs' Hinner.
  - simpl. intros [= <-]. by rewrite app_nil_r.
  - rewrite map_cons, for_each_cons, check_group_typed. cbn [flat_map].
    unfold conflict_of at 1.
    destruct (hg_matcher g) as [m|]; [destruct (is_empty m) eqn:Hm|];
      try (rewrite bind_Ok; intros Hrun; apply (IH _ _ Hinner Hrun)).
    rewrite (Hinner m Hm).
    destruct (last (groups_with existing ev m)) as [g'|]; simpl.
    + destruct (hg_hooks g) as [|e es] eqn:Hh; [discriminate|].
      rewrite ?bind_Ok. intros Hrun. rewrite (IH _ _ Hinner Hrun).
      replace (firstCommandOfGroup g) with (JStr (he_command e))
        by (unfold firstCommandOfGroup; rewrite Hh; reflexivity).
      rewrite <- app_assoc. reflexivity.
    + rewrite ?bind_Ok. intros Hrun. apply (IH _ _ Hinner Hrun).
Qed.

Lemma check_event_typed (idx : gmap string (gmap hkey json)) cs
    (entry : string * list hook_group) :
  check_event idx cs (event_json entry)
  = match idx !! fst entry with
    | Some inner =>
        for_each (check_group (fst entry) inner) (map group_json (snd entry)) cs
    | None => Ok cs
    end.
Proof. destruct entry as [ev gs]. reflexivity. Qed.

(** The second loop on the whole new document. *)
Lemma check_events_typed (existing new : hooks_table)
    (idx : gmap string (gmap hkey json)) : forall cs cs',
  for_each index_event (map event_json existing) ∅ = Ok idx ->
  NoDup (map fst existing) ->
  for_each (check_event idx) (map event_json new) cs = Ok cs' ->
  cs' = cs ++ expected_conflicts existing new.
Proof.
  intros cs cs' Hidx Hnd. revert cs cs'.
  induction new as [|[ev gs] new IH]; intros cs cs'.
  - simpl. intros [= <-]. by rewrite app_nil_r.
  - rewrite map_cons, for_each_cons, check_event_typed. cbn [fst snd].
    unfold expected_conflicts. cbn [flat_map fst snd].
    fold (expected_conflicts existing new).
    pose proof (index_events_lookup _ _ _ ev Hidx Hnd) as Hev.
    destruct (groups_of existing ev) as [gsE|] eqn:HgE.
    + destruct Hev as (inner & -> & Hinner).
      destruct (for_each (check_group ev inner) (map group_json gs) cs)
        as [cs1|x] eqn:Hgs; [|discriminate].
      rewrite bind_Ok. intros Hrun. rewrite (IH _ _ Hrun).
      apply check_groups_typed with (existing := existing) in Hgs.
      * rewrite Hgs, <- app_assoc. reflexivity.
      * intros m Hm. rewrite (index_groups_lookup _ _ _ m Hinner Hm).
        unfold groups_with. rewrite HgE. simpl.
        destruct (last _); reflexivity.
    + rewrite Hev, lookup_empty, bind_Ok. intros Hrun. rewrite (IH _ _ Hrun).
      replace (flat_map (conflict_of existing ev) gs) with (@nil conflict);
        [reflexivity|].
      induction gs as [|g gs IHg]; [reflexivity|]. simpl.
      rewrite (conflict_of_absent _ _ _ HgE). exact IHg.
Qed.

Lemma detect_conflicts_typed (existing new : hooks_table) :
  detect_conflicts (config_json existing) (config_json new)
  = (idx ← for_each index_event (map event_json existing) ∅;
     cs ← for_each (check_event idx) (map event_json new) [];
     Ok {| status := "success";
           message := match cs with
                      | [] => "No conflicts found"
                      | _ :: _ => "Found " +:+ pretty (length cs) +:+ " conflicts"
                      end;
           has_conflicts := (0 <? length cs)%nat;
           conflicts := cs |}).
Proof. reflexivity. Qed.

Lemma index_event_total (existing new : hooks_table)
    (acc : gmap string (gmap hkey json)) (x : string * json) :
  (forall ev gs g, (ev, gs) ∈ existing ++ new -> g ∈ gs -> hg_hooks g <> []) ->
  x ∈ map event_json existing -> exists acc', index_event acc x = Ok acc'.
Proof.
  intros Hhooks Hx. apply list_elem_of_fmap in Hx as ([ev gs] & -> & Hin).
  rewrite index_event_typed. cbn [fst snd].
  destruct (for_each_total index_group (map group_json gs)) with (st := (∅ : gmap hkey json))
    as [inner Hinner].
  - intros m x Hx. apply list_elem_of_fmap in Hx as (g & -> & Hg).
    rewrite index_group_typed.
    destruct (hg_matcher g) as [k|]; [destruct (is_empty k)|]; eauto.
    destruct (hg_hooks g) eqn:Hh; eauto.
    destruct (Hhooks ev gs g); auto. apply elem_of_app. by left.
  - rewrite Hinner, bind_Ok. eauto.
Qed.

Lemma check_event_total (existing new : hooks_table)
    (idx : gmap string (gmap hkey json)) (acc : list conflict) (x : string * json) :
  (forall ev gs g, (ev, gs) ∈ existing ++ new -> g ∈ gs -> hg_hooks g <> []) ->
  x ∈ map event_json new -> exists acc', check_event idx acc x = Ok acc'.
Proof.
  intros Hhooks Hx. apply list_elem_of_fmap in Hx as ([ev gs] & -> & Hin).
  rewrite check_event_typed. cbn [fst snd].
  destruct (idx !! ev) as [inner|]; [|eauto].
  apply for_each_total. intros cs x Hx.
  apply list_elem_of_fmap in Hx as (g & -> & Hg).
  rewrite check_group_typed.
  destruct (hg_matcher g) as [k|]; [destruct (is_empty k)|]; eauto.
  destruct (inner !! KStr k); eauto.
  destruct (hg_hooks g) eqn:Hh; eauto.
  destruct (Hhooks ev gs g); auto. apply elem_of_app. by right.
Qed.

Lemma detect_conflicts_total (existing new : hooks_table) :
  (forall ev gs g, (ev, gs) ∈ existing ++ new -> g ∈ gs -> hg_hooks g <> []) ->
  exists r, detect_conflicts (config_json existing) (config_json new) = Ok r.
Proof.
  intros Hhooks. rewrite detect_conflicts_typed.
  destruct (for_each_total index_event (map event_json existing)
              (fun acc x => index_event_total existing new acc x Hhooks) ∅)
    as [idx Hidx].
  rewrite Hidx, bind_Ok.
  destruct (for_each_total (check_event idx) (map event_json new)
              (fun acc x => check_event_total existing new idx acc x Hhooks) [])
    as [cs Hcs].
  rewrite Hcs, bind_Ok. eauto.
Qed.

End TypedDocuments.

Section ConflictProperties.
Import Conflicts.

Lemma last_filter_some {A} (P : A -> Prop) `{forall x, Decision (P x)} (l : list A) x :
  x ∈ l -> P x -> exists y, last (filter P l) = Some y ∧ y ∈ l ∧ P y.
Proof.
  intros Hin HP.
  assert (Hx : x ∈ filter P l) by (apply list_elem_of_filter; auto).
  destruct (last (filter P l)) as [y|] eqn:Hlast.
  - exists y. split; [reflexivity|].
    apply last_Some in Hlast as [l' Hl'].
    assert (Hy : y ∈ filter P l) by (rewrite Hl'; apply elem_of_app; right; left).
    apply list_elem_of_filter in Hy as [? ?]. auto.
  - apply last_None in Hlast. rewrite Hlast in Hx. by apply elem_of_nil in Hx.
Qed.

Lemma last_filter_none {A} (P : A -> Prop) `{forall x, Decision (P x)} (l : list A) :
  (forall x, x ∈ l -> ~ P x) -> last (filter P l) = None.
Proof. intros Hall. rewrite (filter_all_nil P l Hall). reflexivity. Qed.

(** C3: on two documents of the HooksConfig shape the detector, when it
    returns, lists one conflict for each group of the new document, in
    order, whose matcher is not empty and equals the matcher of some group
    of the existing document under the same event, and nothing else; a group
    without a matcher or with an empty one gives none; has_conflicts says
    whether the list is non-empty.  It returns whenever every group has a
    hook entry.  In the black / autopep8 scenario there is exactly one
    conflict, with those two commands. *)
Theorem C3_conflict_detection :
  (forall existing new r,
      NoDup (map fst existing) ->
      detect_conflicts (config_json existing) (config_json new) = Ok r ->
      conflicts r = expected_conflicts existing new
      ∧ (has_conflicts r = true <-> conflicts r <> [])
      ∧ status r = "success")
  ∧ (forall existing ev g m g',
      hg_matcher g = Some m -> m <> EmptyString ->
      g' ∈ default [] (groups_of existing ev) -> hg_matcher g' = Some m ->
      exists g'',
        g'' ∈ default [] (groups_of existing ev) ∧ hg_matcher g'' = Some m
        ∧ conflict_of existing ev g
          = [ {| event := ev; matcher := JStr m;
                 existing_command := firstCommandOfGroup g'';
                 new_command := firstCommandOfGroup g |} ])
  ∧ (forall existing ev g,
      (forall m g', hg_matcher g = Some m -> m <> EmptyString ->
                    g' ∈ default [] (groups_of existing ev) -> hg_matcher g' <> Some m) ->
      conflict_of existing ev g = [])
  ∧ (forall existing ev g,
      hg_matcher g = None ∨ hg_matcher g = Some EmptyString ->
      conflict_of existing ev g = [])
  ∧ (forall existing new,
      (forall ev gs g, (ev, gs) ∈ existing ++ new -> g ∈ gs -> hg_hooks g <> []) ->
      exists r, detect_conflicts (config_json existing) (config_json new) = Ok r)
  ∧ (exists r c,
      detect_conflicts
        (JObj [("hooks", JObj [("PostToolUse",
           JArr [JObj [("matcher", JStr "Edit");
                       ("hooks", JArr [JObj [("type", JStr "command");
                                             ("command", JStr "black .")]])]])])])
        (JObj [("hooks", JObj [("PostToolUse",
           JArr [JObj [("matcher", JStr "Edit");
                       ("hooks", JArr [JObj [("type", JStr "command");
                                             ("command", JStr "autopep8 .")]])]])])])
      = Ok r
      ∧ has_conflicts r = true
      ∧ conflicts r = [c]
      ∧ event c = "PostToolUse" ∧ matcher c = JStr "Edit"
      ∧ existing_command c = JStr "black ." ∧ new_command c = JStr "autopep8 .")
  ∧ (exists r,
      detect_conflicts
        (JObj [("hooks", JObj [("PostToolUse",
           JArr [JObj [("matcher", JStr "Edit");
                       ("hooks", JArr [JObj [("type", JStr "command");
                                             ("command", JStr "black .")]])]])])])
        (JObj [("hooks", JObj [("PostToolUse",
           JArr [JObj [("matcher", JStr "Write");
                       ("hooks", JArr [JObj [("type", JStr "command");
                                             ("command", JStr "prettier .")]])]])])])
      = Ok r
      ∧ has_conflicts r = false ∧ conflicts r = []).
Proof.
  split; [|split; [|split; [|split; [|split; [|split]]]]].
  - intros existing new r Hnd. rewrite detect_conflicts_typed.
    destruct (for_each index_event (map event_json existing) ∅) as [idx|e] eqn:Hidx;
      [|discriminate].
    rewrite bind_Ok.
    destruct (for_each (check_event idx) (map event_json new) []) as [cs|e] eqn:Hcs;
      [|discriminate].
    rewrite bind_Ok. intros [= <-]. simpl.
    apply (check_events_typed existing new idx [] cs Hidx Hnd) in Hcs. simpl in Hcs.
    split; [exact Hcs|]. split; [|reflexivity].
    destruct cs; cbn; split; intros E; try discriminate; try reflexivity.
    by destruct E.
  - intros existing ev g m g' Hg Hm Hin Hg'.
    destruct (last_filter_some (fun x => hg_matcher x = Some m) _ g' Hin Hg')
      as (g'' & Hlast & Hin'' & Hg'').
    exists g''. split; [exact Hin''|]. split; [exact Hg''|].
    unfold conflict_of, groups_with. rewrite Hg, (is_empty_false _ Hm), Hlast.
    reflexivity.
  - intros existing ev g Hnone. unfold conflict_of, groups_with.
    destruct (hg_matcher g) as [m|] eqn:Hg; [|reflexivity].
    destruct m as [|a m]; [reflexivity|]. cbn [is_empty].
    rewrite last_filter_none; [reflexivity|].
    intros x Hx. apply (Hnone (String a m)); [reflexivity|discriminate|exact Hx].
  - intros existing ev g [Hg|Hg]; unfold conflict_of; rewrite Hg; reflexivity.
  - exact detect_conflicts_total.
  - eexists _, _. repeat apply conj; vm_compute; reflexivity.
  - eexists. repeat apply conj; vm_compute; reflexivity.
Qed.

Lemma C3_conflict_detection_witness :
  exists r,
    detect_conflicts
      (config_json
         [("PreToolUse",
           [ {| hg_matcher := Some "Bash";
                hg_hooks := [ {| he_type := "command"; he_command := "git status" |} ] |} ])])
      (config_json
         [("PreToolUse",
           [ {| hg_matcher := None;
                hg_hooks := [ {| he_type := "command"; he_command := "true" |} ] |};
             {| hg_matcher := Some "Bash";
                hg_hooks := [ {| he_type := "command"; he_command := "npm test" |} ] |} ])])
    = Ok r
    ∧ conflicts r
      = [ {| event := "PreToolUse"; matcher := JStr "Bash";
             existing_command := JStr "git status";
             new_command := JStr "npm test" |} ].
Proof.
  eexists. split; [vm_compute; reflexivity|].
  match goal with
  | |- conflicts ?r = _ =>
      destruct (proj1 C3_conflict_detection
        [("PreToolUse",
          [ {| hg_matcher := Some "Bash";
               hg_hooks := [ {| he_type := "command"; he_command := "git status" |} ] |} ])]
        [("PreToolUse",
          [ {| hg_matcher := None;
               hg_hooks := [ {| he_type := "command"; he_command := "true" |} ] |};
            {| hg_matcher := Some "Bash";
               hg_hooks := [ {| he_type := "command"; he_command := "npm test" |} ] |} ])]
        r) as (Hc & _ & _)
  end.
  - apply NoDup_cons. split; [set_solver|apply NoDup_nil_2].
  - vm_compute. reflexivity.
  - rewrite Hc. vm_compute. reflexivity.
Defined.

(** C9: a group with a non-empty matcher whose "hooks" list is empty makes
    the first-command lookup index an empty list: the detector raises
    IndexError, which nothing catches, whatever the other document holds;
    so does the command line check, which then exits with status 1.  The
    lookup is reached in the new document too, on a group that conflicts. *)
Theorem C9_empty_hooks_index_error :
  (forall (existing : hooks_table) (new_members : list (string * json)) ev gs g m,
      (ev, gs) ∈ existing -> g ∈ gs ->
      hg_matcher g = Some m -> m <> EmptyString -> hg_hooks g = [] ->
      detect_conflicts (config_json existing) (JObj new_members) = Raise IndexError
      ∧ Cli.detect_merge_conflicts (Cli.Parsed (config_json existing))
                                   (Cli.Parsed (JObj new_members)) = Raise IndexError
      ∧ Cli.main_merge (Cli.Parsed (config_json existing))
                       (Cli.Parsed (JObj new_members)) = 1%nat)
  ∧ first_command (JObj [("matcher", JStr "Edit"); ("hooks", JArr [])]) = Raise IndexError
  ∧ detect_conflicts
      (JObj [("hooks", JObj [("PostToolUse",
         JArr [JObj [("matcher", JStr "Edit"); ("hooks", JArr [])]])])])
      (JObj [("hooks", JObj [])])
    = Raise IndexError
  ∧ detect_conflicts
      (JObj [("hooks", JObj [("PostToolUse",
         JArr [JObj [("matcher", JStr "Edit");
                     ("hooks", JArr [JObj [("type", JStr "command");
                                           ("command", JStr "black .")]])]])])])
      (JObj [("hooks", JObj [("PostToolUse",
         JArr [JObj [("matcher", JStr "Edit"); ("hooks", JArr [])]])])])
    = Raise IndexError.
Proof.
  split; [|repeat apply conj; vm_compute; reflexivity].
  intros existing new_members ev gs g m Hin Hg Hm Hne Hh.
  assert (Hloop : for_each index_event (map event_json existing) ∅ = Raise IndexError).
  { destruct (for_each index_event (map event_json existing) ∅) as [idx|e] eqn:Hidx.
    - destruct (index_events_hooks _ _ _ _ _ _ _ Hidx Hin Hg Hm (is_empty_false _ Hne)).
      exact Hh.
    - f_equal. eapply index_events_raise, Hidx. }
  assert (Hmerge : Cli.detect_merge_conflicts (Cli.Parsed (config_json existing))
                     (Cli.Parsed (JObj new_members)) = Raise IndexError).
  { unfold Cli.detect_merge_conflicts, config_json, py_get, py_items.
    cbn [dict_get String.eqb Ascii.eqb Bool.eqb default from_option id].
    rewrite !bind_Ok, Hloop. reflexivity. }
  split; [|split; [exact Hmerge|]].
  - unfold detect_conflicts, config_json, py_get, py_items.
    cbn [dict_get String.eqb Ascii.eqb Bool.eqb default from_option id].
    rewrite !bind_Ok, Hloop. reflexivity.
  - unfold Cli.main_merge. rewrite Hmerge. reflexivity.
Qed.

Lemma C9_empty_hooks_index_error_witness :
  detect_conflicts
    (config_json [("Stop", [ {| hg_matcher := Some "Bash"; hg_hooks := [] |} ])])
    (JObj [])
  = Raise IndexError.
Proof.
  apply (proj1 C9_empty_hooks_index_error
           [("Stop", [ {| hg_matcher := Some "Bash"; hg_hooks := [] |} ])] []
           "Stop" [ {| hg_matcher := Some "Bash"; hg_hooks := [] |} ]
           {| hg_matcher := Some "Bash"; hg_hooks := [] |} "Bash").
  - left.
  - left.
  - reflexivity.
  - discriminate.
  - reflexivity.
Defined.

End ConflictProperties.

(** ** The command line validator *)

Lemma file_events_true (hooks : list (string * json)) : forall hook_count b,
  (forall ev v, (ev, v) ∈ hooks -> exists groups, v = JArr groups) ->
  Cli.file_events hooks hook_count = Ok b -> b = true.
Proof.
  induction hooks as [|[event v] hooks IH]; intros hook_count b Harr; simpl.
  - intros [= <-]. reflexivity.
  - destruct (Harr event v) as [groups ->]; [left|].
    destruct (for_each Cli.file_group (enumerate groups) hook_count) as [n|e];
      [|discriminate].
    rewrite bind_Ok. apply IH. intros ev' v' Hin. apply (Harr ev' v'). by right.
Qed.

(** C8, as the code has it: [validate_hooks_file] looks at every group and
    entry but returns [False] only for a failure at the root, at the "hooks"
    key or at an event whose value is not an array.  An entry without a
    command is reported and the file still passes: the function returns
    [True] and the script exits with status 0, while the server's validator
    gives the same document the status error.  With a group that is not an
    object the function returns [True] as well, and the status 1 of the
    script comes from the summary that follows, which fails on the group. *)
Theorem C8_cli_passes_failed_entries :
  Cli.validate_hooks_file
    (Cli.Parsed (JObj [("hooks", JObj [("PostToolUse",
       JArr [JObj [("hooks", JArr [JObj [("type", JStr "command")]])]])])]))
  = Ok true
  ∧ Cli.main_validate
      (Cli.Parsed (JObj [("hooks", JObj [("PostToolUse",
         JArr [JObj [("hooks", JArr [JObj [("type", JStr "command")]])]])])]))
    = 0%nat
  ∧ (exists r,
      Validate.validate_hooks
        (JObj [("hooks", JObj [("PostToolUse",
           JArr [JObj [("hooks", JArr [JObj [("type", JStr "command")]])]])])])
      = Ok r
      ∧ Validate.status r = "error"
      ∧ Validate.issues r = [Validate.HookMissingCommand "PostToolUse" 0 0])
  ∧ Cli.validate_hooks_file
      (Cli.Parsed (JObj [("hooks", JObj [("PostToolUse", JArr [JNum 5])])]))
    = Ok true
  ∧ Cli.display_hooks_summary (JObj [("hooks", JObj [("PostToolUse", JArr [JNum 5])])])
    = Raise AttributeError
  ∧ Cli.main_validate
      (Cli.Parsed (JObj [("hooks", JObj [("PostToolUse", JArr [JNum 5])])]))
    = 1%nat
  ∧ (forall members hooks b,
      dict_get "hooks" members = Some (JObj hooks) ->
      (forall ev v, (ev, v) ∈ hooks -> exists groups, v = JArr groups) ->
      Cli.validate_hooks_file (Cli.Parsed (JObj members)) = Ok b -> b = true).
Proof.
  repeat apply conj; try (vm_compute; reflexivity).
  - eexists. repeat apply conj; vm_compute; reflexivity.
  - intros members hooks b Hh Harr. unfold Cli.validate_hooks_file. rewrite Hh.
    apply file_events_true, Harr.
Qed.

Lemma C8_cli_passes_failed_entries_witness :
  Cli.validate_hooks_file
    (Cli.Parsed (JObj [("hooks", JObj [("Stop",
       JArr [JObj [("matcher", JStr "Bash")]; JStr "oops"])])]))
  = Ok true.
Proof.
  assert (H : exists b,
             Cli.validate_hooks_file
               (Cli.Parsed (JObj [("hooks", JObj [("Stop",
                  JArr [JObj [("matcher", JStr "Bash")]; JStr "oops"])])]))
             = Ok b) by (eexists; vm_compute; reflexivity).
  destruct H as [b Hb]. rewrite Hb. f_equal.
  apply (proj2 (proj2 (proj2 (proj2 (proj2 (proj2 C8_cli_passes_failed_entries)))))
           [("hooks", JObj [("Stop", JArr [JObj [("matcher", JStr "Bash")]; JStr "oops"])])]
           [("Stop", JArr [JObj [("matcher", JStr "Bash")]; JStr "oops"])] b).
  - reflexivity.
  - intros ev v Hin. apply elem_of_cons in Hin as [[= -> ->]|Hin]; [eauto|].
    by apply elem_of_nil in Hin.
  - exact Hb.
Defined.

(** * Further properties of the code *)

(** ** Text: stripping and splitting *)

Lemma has_char_lstrip d s : has_char d s = false -> has_char d (lstrip s) = false.
Proof.
  induction s as [|c s IH]; [reflexivity|]. intros H. simpl.
  destruct (is_space c); [|exact H].
  simpl in H. apply orb_false_elim in H as [_ H]. auto.
Qed.

Lemma has_char_rstrip d s : has_char d s = false -> has_char d (rstrip s) = false.
Proof.
  induction s as [|c s IH]; [reflexivity|]. intros H. simpl in H |- *.
  apply orb_false_elim in H as [Hc Hs]. specialize (IH Hs).
  destruct (rstrip s) as [|a r].
  - destruct (is_space c); simpl; [reflexivity|]. rewrite Hc. reflexivity.
  - simpl in IH |- *. rewrite Hc. exact IH.
Qed.

Lemma has_char_strip d s : has_char d s = false -> has_char d (strip s) = false.
Proof. intros H. unfold strip. apply has_char_rstrip, has_char_lstrip, H. Qed.

Lemma lstrip_head s :
  match lstrip s with
  | EmptyString => True
  | String c _ => is_space c = false
  end.
Proof.
  induction s as [|c s IH]; simpl; [exact I|].
  destruct (is_space c) eqn:Hc; [exact IH|exact Hc].
Qed.

Lemma rstrip_idem s : rstrip (rstrip s) = rstrip s.
Proof.
  induction s as [|c s IH]; [reflexivity|]. simpl.
  destruct (rstrip s) as [|a r] eqn:Hr.
  - destruct (is_space c) eqn:Hc; simpl; [reflexivity|]. rewrite Hc. reflexivity.
  - change (rstrip (String c (String a r))) with
      (match rstrip (String a r) with
       | EmptyString => if is_space c then EmptyString else String c EmptyString
       | r' => String c r'
       end).
    rewrite IH. reflexivity.
Qed.

Lemma rstrip_head c s a r : rstrip (String c s) = String a r -> a = c.
Proof.
  simpl. destruct (rstrip s); [destruct (is_space c)|]; congruence.
Qed.

Lemma lstrip_strip s : lstrip (strip s) = strip s.
Proof.
  unfold strip. pose proof (lstrip_head s) as Hh.
  destruct (lstrip s) as [|c t] eqn:Hl; [reflexivity|].
  destruct (rstrip (String c t)) as [|a r] eqn:Hr; [reflexivity|].
  apply rstrip_head in Hr as ->. simpl. rewrite Hh. reflexivity.
Qed.

Lemma rstrip_strip s : rstrip (strip s) = strip s.
Proof. unfold strip. apply rstrip_idem. Qed.

Lemma strip_idem s : strip (strip s) = strip s.
Proof. unfold strip at 1. rewrite lstrip_strip. apply rstrip_strip. Qed.

Lemma re_split_pieces (sep : ascii -> bool) d s p :
  sep d = true -> p ∈ re_split sep s -> has_char d p = false.
Proof.
  intros Hd. revert p. induction s as [|c s IH]; intros p; simpl.
  - intros Hp. apply list_elem_of_singleton in Hp as ->. reflexivity.
  - destruct (sep c) eqn:Hc.
    + intros Hp. apply elem_of_cons in Hp as [->|Hp]; [reflexivity|auto].
    + destruct (re_split sep s) as [|piece pieces] eqn:Hs.
      * intros Hp. apply list_elem_of_singleton in Hp as ->. simpl.
        rewrite orb_false_r. destruct (Ascii.eqb_spec d c) as [->|]; congruence.
      * intros Hp. apply elem_of_cons in Hp as [->|Hp].
        -- simpl. rewrite (IH piece) by left. rewrite orb_false_r.
           destruct (Ascii.eqb_spec d c) as [->|]; congruence.
        -- apply IH. by right.
Qed.

(** X1: every candidate rule that [convert_rules] works on is non-empty,
    holds no comma and no semicolon, and has no white space at either end
    (stripping it again changes nothing). *)
Theorem X1_candidate_rules (rules c : string) :
  c ∈ split_rules rules ->
  c <> EmptyString
  ∧ has_char ","%char c = false ∧ has_char ";"%char c = false
  ∧ lstrip c = c ∧ rstrip c = c ∧ strip c = c.
Proof.
  unfold split_rules. intros Hc.
  apply list_elem_of_filter in Hc as [Hne Hc].
  apply list_elem_of_fmap in Hc as (p & -> & Hp).
  split; [intros E; rewrite E in Hne; discriminate|].
  split; [apply has_char_strip, (re_split_pieces is_separator ","%char _ _ eq_refl Hp)|].
  split; [apply has_char_strip, (re_split_pieces is_separator ";"%char _ _ eq_refl Hp)|].
  split; [apply lstrip_strip|]. split; [apply rstrip_strip|apply strip_idem].
Qed.

Lemma X1_candidate_rules_witness :
  "b c" <> EmptyString
  ∧ has_char ","%char "b c" = false ∧ has_char ";"%char "b c" = false
  ∧ lstrip "b c" = "b c" ∧ rstrip "b c" = "b c" ∧ strip "b c" = "b c".
Proof.
  apply (X1_candidate_rules " a ,, b c ;" "b c"). vm_compute. set_solver.
Defined.

(** ** Command extraction: what a command can be *)

Lemma length_append a b : String.length (a +:+ b) = (String.length a + String.length b)%nat.
Proof. induction a as [|c a IH]; [reflexivity|]. rewrite append_cons. simpl. lia. Qed.

Lemma length_lower s : String.length (lower s) = String.length s.
Proof. induction s as [|c s IH]; simpl; congruence. Qed.

Lemma span_length p s run rest :
  span p s = (run, rest) ->
  (String.length run + String.length rest)%nat = String.length s.
Proof.
  revert run rest. induction s as [|c s IH]; intros run rest; simpl.
  - intros [= <- <-]. reflexivity.
  - destruct (p c).
    + destruct (span p s) as [run' rest'] eqn:Hs. intros [= <- <-].
      specialize (IH _ _ eq_refl). simpl. lia.
    + intros [= <- <-]. reflexivity.
Qed.

Lemma match_delimited_at_some d s g :
  match_delimited_at d s = Some g ->
  g <> EmptyString ∧ (String.length g + 2 <= String.length s)%nat.
Proof.
  unfold match_delimited_at. destruct s as [|c s]; [discriminate|].
  destruct (Ascii.eqb c d); [|discriminate].
  destruct (span _ s) as [run rest] eqn:Hs. apply span_length in Hs.
  destruct run as [|a run]; [discriminate|]. destruct rest as [|b rest]; [discriminate|].
  intros [= <-]. split; [discriminate|]. simpl in *. lia.
Qed.

Lemma search_delimited_some d s g :
  search_delimited d s = Some g ->
  g <> EmptyString ∧ (String.length g + 2 <= String.length s)%nat.
Proof.
  induction s as [|c s IH]; rewrite search_delimited_eq.
  - destruct (match_delimited_at d EmptyString) eqn:Hm; [|discriminate].
    intros [= <-]. apply match_delimited_at_some in Hm. exact Hm.
  - destruct (match_delimited_at d (String c s)) eqn:Hm.
    + intros [= <-]. apply match_delimited_at_some in Hm. exact Hm.
    + intros H. destruct (IH H) as [Hne Hlen]. split; [exact Hne|]. simpl. lia.
Qed.

Lemma startswith_drop p s :
  startswith p s = true ->
  (String.length (drop (String.length p) s) + String.length p)%nat = String.length s.
Proof.
  revert s. induction p as [|a p IH]; intros s; simpl; [lia|].
  destruct s as [|b s]; [discriminate|]. destruct (Ascii.eqb a b); [|discriminate].
  intros H. specialize (IH _ H). simpl. lia.
Qed.

Lemma match_verb_object_some verb s token :
  match_verb_object verb s = Some token ->
  token <> EmptyString
  ∧ (String.length token + String.length verb + 1 <= String.length s)%nat.
Proof.
  unfold match_verb_object. destruct (startswith verb s) eqn:Hv; [|discriminate].
  apply startswith_drop in Hv.
  destruct (span is_space _) as [spaces rest] eqn:H1. apply span_length in H1.
  destruct (span _ rest) as [tok rest'] eqn:H2. apply span_length in H2.
  destruct spaces as [|a spaces]; [discriminate|].
  destruct tok as [|b tok]; [discriminate|].
  intros [= <-]. split; [discriminate|]. simpl in *. lia.
Qed.

Lemma match_verbs_at_some verbs s token :
  (forall v, v ∈ verbs -> (3 <= String.length v)%nat) ->
  match_verbs_at verbs s = Some token ->
  token <> EmptyString ∧ (String.length token + 4 <= String.length s)%nat.
Proof.
  induction verbs as [|v verbs IH]; intros Hv; simpl; [discriminate|].
  destruct (match_verb_object v s) eqn:Hm.
  - intros [= <-]. apply match_verb_object_some in Hm as [Hne Hlen].
    split; [exact Hne|]. specialize (Hv v ltac:(left)). lia.
  - apply IH. intros v' Hin. apply Hv. by right.
Qed.

Lemma VERBS_length v : v ∈ VERBS -> (3 <= String.length v)%nat.
Proof.
  unfold VERBS. intros Hv.
  repeat (apply elem_of_cons in Hv as [->|Hv]; [simpl; lia|]).
  by apply elem_of_nil in Hv.
Qed.

Lemma search_verb_some s : forall prev_word token,
  search_verb prev_word s = Some token ->
  token <> EmptyString ∧ (String.length token + 4 <= String.length s)%nat.
Proof.
  induction s as [|c s IH]; intros prev_word token.
  - destruct prev_word; vm_compute; discriminate.
  - change (search_verb prev_word (String c s)) with
      (match (if word_boundary prev_word (String c s)
              then match_verbs_at VERBS (String c s) else None) with
       | Some t => Some t
       | None => search_verb (is_word c) s
       end).
    destruct (if word_boundary prev_word (String c s)
              then match_verbs_at VERBS (String c s) else None) eqn:Hm.
    + intros [= <-]. destruct (word_boundary _ _); [|discriminate].
      exact (match_verbs_at_some _ _ _ VERBS_length Hm).
    + intros H. destruct (IH _ _ H) as [Hne Hlen]. split; [exact Hne|]. simpl. lia.
Qed.

Lemma common_patterns_some text command :
  common_patterns text = Some command ->
  command <> EmptyString ∧ (String.length command <= 57)%nat.
Proof.
  unfold common_patterns.
  repeat match goal with
         | |- context [if ?b then _ else _] => destruct b
         end; intros [= <-]; (split; [discriminate|vm_compute; lia]).
Qed.

Lemma extract_command_some rule command :
  _extract_command rule = Some command ->
  command <> EmptyString
  ∧ (String.length command <= Nat.max (String.length rule + 16) 57)%nat.
Proof.
  unfold _extract_command, qualifying_quote, verb_object. cbv zeta.
  destruct (search_delimited backtick rule) as [g|] eqn:Hb.
  { intros [= <-]. apply search_delimited_some in Hb as [? ?]. split; [auto|lia]. }
  destruct (search_delimited dquote rule) as [g|] eqn:Hq.
  - apply search_delimited_some in Hq as [Hne Hlen].
    destruct (existsb _ _).
    + intros [= <-]. split; [auto|lia].
    + destruct (common_patterns (lower rule)) as [c|] eqn:Hc.
      * intros [= <-]. apply common_patterns_some in Hc as [? ?]. split; [auto|lia].
      * destruct (search_verb false (lower rule)) as [t|] eqn:Hv; [|discriminate].
        intros [= <-]. apply search_verb_some in Hv as [Ht Hl].
        rewrite length_lower in Hl. split.
        -- destruct t; [contradiction|discriminate].
        -- rewrite length_append. simpl. lia.
  - destruct (common_patterns (lower rule)) as [c|] eqn:Hc.
    + intros [= <-]. apply common_patterns_some in Hc as [? ?]. split; [auto|lia].
    + destruct (search_verb false (lower rule)) as [t|] eqn:Hv; [|discriminate].
      intros [= <-]. apply search_verb_some in Hv as [Ht Hl].
      rewrite length_lower in Hl. split.
      * destruct t; [contradiction|discriminate].
      * rewrite length_append. simpl. lia.
Qed.



(** ** The second server: when it returns and what it records *)

Lemma bounded_string_ok_length value max_length name v :
  bounded_string value max_length name = Ok v ->
  (String.length value <= max_length)%nat.
Proof.
  unfold bounded_string.
  destruct (Nat.ltb_spec max_length (String.length value)); [discriminate|]. intros _. lia.
Qed.

Lemma bounded_string_raise value max_length name e :
  bounded_string value max_length name = Raise e -> exists message, e = ValidationError message.
Proof.
  unfold bounded_string. destruct (max_length <? String.length value)%nat;
    [|discriminate]. intros [= <-]. eauto.
Qed.

Lemma bounded_rules_length pieces : forall start rule_list,
  V2.bounded_rules (enumerate_from start pieces) = Ok rule_list ->
  forall c, c ∈ rule_list -> (String.length c <= V2.MAX_RULE_LENGTH)%nat.
Proof.
  induction pieces as [|r pieces IH]; intros start rule_list; simpl.
  - intros [= <-] c Hc. by apply elem_of_nil in Hc.
  - destruct (is_empty (strip r)); [apply IH|].
    destruct (bounded_string (strip r) V2.MAX_RULE_LENGTH _) as [v|e] eqn:Hb;
      [|discriminate].
    pose proof (bounded_string_ok_length _ _ _ _ Hb) as Hlen.
    apply bounded_string_ok in Hb as ->. rewrite bind_Ok.
    destruct (V2.bounded_rules (enumerate_from (S start) pieces)) as [l|e] eqn:Hr;
      [|discriminate].
    rewrite bind_Ok. intros [= <-] c Hc.
    apply elem_of_cons in Hc as [->|Hc]; [exact Hlen|]. eapply IH; eauto.
Qed.

Lemma bounded_rules_raise pieces : forall start e,
  V2.bounded_rules (enumerate_from start pieces) = Raise e ->
  exists message, e = ValidationError message.
Proof.
  induction pieces as [|r pieces IH]; intros start e; simpl; [discriminate|].
  destruct (is_empty (strip r)); [apply IH|].
  destruct (bounded_string (strip r) V2.MAX_RULE_LENGTH _) as [v|e'] eqn:Hb.
  - rewrite bind_Ok.
    destruct (V2.bounded_rules (enumerate_from (S start) pieces)) as [l|e'] eqn:Hr.
    + rewrite bind_Ok. discriminate.
    + rewrite bind_Raise. intros [= <-]. eapply IH, Hr.
  - rewrite bind_Raise. intros [= <-]. eapply bounded_string_raise, Hb.
Qed.

Lemma convert_rules_returns rules merge_with_existing :
  (String.length rules < 5000)%nat ->
  split_rules (strip rules) <> [] ->
  (forall c, c ∈ split_rules (strip rules) -> (String.length c <= 500)%nat) ->
  exists r, V2.convert_rules rules merge_with_existing = Ok r.
Proof.
  intros Hlen Hne Hfit. unfold V2.convert_rules.
  destruct (is_empty (strip rules)) eqn:He.
  { exfalso. apply Hne. destruct (strip rules); [reflexivity|discriminate]. }
  change (V2.MAX_RULE_LENGTH * 10)%nat with 5000%nat.
  destruct (Nat.ltb_spec (String.length rules) 5000); [|lia]. simpl negb. cbv iota.
  rewrite bounded_string_fits by (pose proof (length_strip rules); lia).
  rewrite bind_Ok. unfold enumerate.
  rewrite bounded_rules_fit by exact Hfit.
  rewrite bind_Ok. fold (split_rules (strip rules)).
  destruct (split_rules (strip rules)) as [|rule rule_list]; [contradiction|].
  match goal with
  | |- context [V2.overall ?st] =>
      destruct (overall_fields st) as (_ & _ & _ & Es); rewrite Es;
      destruct (V2.st_converted st), (V2.st_failed st)
  end; simpl; eauto.
Qed.

Lemma convert_rules_bounds rules merge_with_existing r :
  V2.convert_rules rules merge_with_existing = Ok r ->
  (String.length rules < 5000)%nat
  ∧ forall c, c ∈ split_rules (strip rules) -> (String.length c <= 500)%nat.
Proof.
  unfold V2.convert_rules.
  destruct (is_empty (strip rules)); [discriminate|].
  change (V2.MAX_RULE_LENGTH * 10)%nat with 5000%nat.
  destruct (Nat.ltb_spec (String.length rules) 5000); [|discriminate]. simpl negb. cbv iota.
  destruct (bounded_string (strip rules) 5000 "rules") as [rules_text|e] eqn:Hb;
    [|discriminate].
  apply bounded_string_ok in Hb as ->. rewrite bind_Ok.
  destruct (V2.bounded_rules _) as [rule_list|e] eqn:Hr; [|discriminate].
  intros _. split; [assumption|].
  pose proof (bounded_rules_ok _ _ _ Hr) as Hl. fold (split_rules (strip rules)) in Hl.
  rewrite <- Hl. exact (bounded_rules_length _ _ _ Hr).
Qed.

Lemma convert_rules_raise rules merge_with_existing e :
  V2.convert_rules rules merge_with_existing = Raise e ->
  exists message, e = ValidationError message.
Proof.
  unfold V2.convert_rules.
  destruct (is_empty (strip rules)); [intros [= <-]; eauto|].
  destruct (negb _); [intros [= <-]; eauto|].
  destruct (bounded_string (strip rules) _ _) as [rules_text|e'] eqn:Hb.
  - rewrite bind_Ok. destruct (V2.bounded_rules _) as [rule_list|e'] eqn:Hr.
    + rewrite bind_Ok. destruct rule_list; [intros [= <-]; eauto|].
      cbv zeta. match goal with
      | |- (if ?b then _ else _) = _ -> _ => destruct b
      end; [discriminate|intros [= <-]; eauto].
    + rewrite bind_Raise. intros [= <-]. eapply bounded_rules_raise, Hr.
  - rewrite bind_Raise. intros [= <-]. eapply bounded_string_raise, Hb.
Qed.

(** X3: the second server's [convert_rules] returns a result exactly when
    the text has fewer than 5000 characters, holds at least one candidate
    rule and no candidate longer than 500 characters; in every other case
    it raises a ValidationError, never another exception. *)
Theorem X3_conversion_returns (rules : string) (merge_with_existing : bool) :
  ((exists r, V2.convert_rules rules merge_with_existing = Ok r)
   <-> (String.length rules < 5000)%nat
       ∧ split_rules (strip rules) <> []
       ∧ forall c, c ∈ split_rules (strip rules) -> (String.length c <= 500)%nat)
  ∧ (forall e, V2.convert_rules rules merge_with_existing = Raise e ->
               exists message, e = ValidationError message).
Proof.
  split; [split|].
  - intros [r Hr]. destruct (convert_rules_bounds _ _ _ Hr) as [Hlen Hfit].
    destruct (convert_rules_run _ _ _ Hr) as [Hne _]. auto.
  - intros (Hlen & Hne & Hfit). by apply convert_rules_returns.
  - apply convert_rules_raise.
Qed.






(** ** The two servers side by side *)











Lemma v1_step_eq hooks converted rule :
  V1.convert_step (hooks, converted) rule =
  match _extract_command rule with
  | Some command =>
      (append_group hooks (_determine_event rule)
         (make_group (_determine_event rule) (_determine_tools rule)
            {| he_type := "command"; he_command := command |}),
       converted ++ [ {| cr_rule := rule; cr_event := _determine_event rule;
                         cr_tools := _determine_tools rule; cr_command := command |} ])
  | None => (hooks, converted)
  end.
Proof.
  unfold V1.convert_step. cbv zeta.
  destruct (_extract_command rule) as [command|] eqn:Hc; [|reflexivity].
  apply extract_command_some in Hc as [Hne _]. rewrite (is_empty_false _ Hne).
  reflexivity.
Qed.

Lemma v1_fold_rules rule_list : forall hooks converted,
  map cr_rule (snd (fold_left V1.convert_step rule_list (hooks, converted)))
  = map cr_rule converted
    ++ filter (fun c => is_Some (_extract_command c)) rule_list.
Proof.
  induction rule_list as [|rule rule_list IH]; intros hooks converted; cbn [fold_left].
  - rewrite filter_nil, app_nil_r. reflexivity.
  - rewrite v1_step_eq. destruct (_extract_command rule) as [command|] eqn:Hc.
    + rewrite IH, filter_cons_True by (rewrite Hc; eauto).
      rewrite map_app, <- app_assoc. reflexivity.
    + rewrite IH, filter_cons_False by (rewrite Hc; apply is_Some_None). reflexivity.
Qed.


(** X5: the first server reports "error" only when the text holds no
    candidate rule; with at least one candidate it always reports
    "success", its conversions being the candidates for which a command was
    found, in order: a rule without a command leaves no record, and a batch
    in which nothing converts is still a success. *)
Theorem X5_first_server_status (rules : string) (merge_with_existing : bool) :
  (split_rules rules = [] ->
   V1.status (V1.convert_rules rules merge_with_existing) = "error"
   ∧ V1.hooks_config (V1.convert_rules rules merge_with_existing) = None
   ∧ V1.converted_rules (V1.convert_rules rules merge_with_existing) = None)
  ∧ (split_rules rules <> [] ->
     V1.status (V1.convert_rules rules merge_with_existing) = "success"
     ∧ exists converted,
         V1.converted_rules (V1.convert_rules rules merge_with_existing) = Some converted
         ∧ map cr_rule converted
           = filter (fun c => is_Some (_extract_command c)) (split_rules rules)).
Proof.
  unfold V1.convert_rules. split.
  - intros ->. auto.
  - intros Hne. destruct (split_rules rules) as [|rule rule_list] eqn:Hs; [contradiction|].
    cbv beta iota.
    match goal with
    | |- context [fold_left V1.convert_step ?l ?i] =>
        set (res := fold_left V1.convert_step l i)
    end.
    assert (Hfold : map cr_rule (snd res)
                    = filter (fun c => is_Some (_extract_command c)) (rule :: rule_list))
      by (subst res; exact (v1_fold_rules (rule :: rule_list) [] [])).
    clearbody res. destruct res as [hooks converted].
    cbn [snd V1.status V1.converted_rules] in Hfold |- *. split; [reflexivity|]. exists converted.
    split; [reflexivity|exact Hfold].
Qed.

Lemma X5_first_server_status_witness :
  V1.status (V1.convert_rules "xyzzy plugh" true) = "success"
  ∧ exists converted,
      V1.converted_rules (V1.convert_rules "xyzzy plugh" true) = Some converted
      ∧ map cr_rule converted
        = filter (fun c => is_Some (_extract_command c)) (split_rules "xyzzy plugh").
Proof.
  apply (proj2 (X5_first_server_status "xyzzy plugh" true)). vm_compute. discriminate.
Defined.



(** ** The configuration the converter builds *)
















(** ** Converting, then validating *)

Section ConvertThenValidate.
Import Validate.




Lemma group_json_hooks g :
  exists members,
    group_json g = JObj members
    ∧ dict_get "hooks" members = Some (JArr (map entry_json (hg_hooks g)))
    ∧ default (JStr "") (dict_get "matcher" members)
      = JStr (default EmptyString (hg_matcher g)).
Proof.
  unfold group_json. destruct (hg_matcher g); eexists; split; try reflexivity;
    split; reflexivity.
Qed.







End ConvertThenValidate.

(** ** The validator: when it returns, and its summary *)

Section ValidatorFurther.
Import Validate.

(** X9: once the top-level checks have passed, [validate_hooks] returns a
    result exactly when every hook entry it reaches has a command that is
    falsy or can be shortened (a string, or a list or dict of at most 50
    items); a document with any other command, such as a number, makes it
    raise TypeError instead of reporting an issue. *)
Theorem X9_validator_returns (members hooks : list (string * json)) :
  dict_get "hooks" members = Some (JObj hooks) ->
  ((exists r, validate_hooks (JObj members) = Ok r) <-> forallb safe_event hooks = true)
  ∧ (forallb safe_event hooks = false -> validate_hooks (JObj members) = Raise TypeError).
Proof.
  intros Hh. pose proof (validate_hooks_run members hooks Hh) as Hrun.
  destruct (forallb safe_event hooks).
  - split; [tauto|discriminate].
  - split; [|auto]. split; [|discriminate]. intros [r Hr]. congruence.
Qed.

Lemma X9_validator_returns_witness :
  validate_hooks
    (JObj [("hooks", JObj [("Stop", JArr [JObj [("hooks",
              JArr [JObj [("type", JStr "command"); ("command", JNum 7)]])]])])])
  = Raise TypeError.
Proof.
  apply (proj2 (X9_validator_returns
    [("hooks", JObj [("Stop", JArr [JObj [("hooks",
              JArr [JObj [("type", JStr "command"); ("command", JNum 7)]])]])])]
    [("Stop", JArr [JObj [("hooks",
              JArr [JObj [("type", JStr "command"); ("command", JNum 7)]])]])]
    eq_refl)).
  vm_compute. reflexivity.
Defined.

Lemma length_take n s : (String.length (take n s) <= n)%nat.
Proof.
  revert s. induction n as [|n IH]; intros s; [simpl; lia|].
  destruct s as [|c s]; simpl; [lia|]. specialize (IH s). lia.
Qed.

Lemma elem_of_flat_map_inv {A B} (f : A -> list B) (l : list A) y :
  y ∈ flat_map f l -> exists x, x ∈ l ∧ y ∈ f x.
Proof.
  intros H. apply list_elem_of_In, in_flat_map in H as (x & Hx & Hy).
  exists x. split; by apply list_elem_of_In.
Qed.

Lemma shorten_string command s :
  truthy command = true -> shorten command = Ok (JStr s) ->
  s <> EmptyString ∧ (String.length s <= 53)%nat.
Proof.
  destruct command as [| | |s0| |]; unfold shorten; try discriminate.
  - intros Ht Hs.
    assert (E : s = if (50 <? String.length s0)%nat then take 50 s0 +:+ "..." else s0)
      by congruence.
    clear Hs. subst s. destruct (Nat.ltb_spec 50 (String.length s0)) as [Hlong|Hshort].
    + split.
      * destruct s0 as [|c s0]; [discriminate|].
        change (take 50 (String c s0)) with (String c (take 49 s0)).
        rewrite append_cons. discriminate.
      * pose proof (length_take 50 s0) as Hl. rewrite length_append.
        change (String.length "...") with 3%nat. lia.
    + split; [|lia]. destruct s0; [discriminate|discriminate].
  - intros _. destruct (50 <? length items)%nat; discriminate.
  - intros _. destruct (50 <? length members)%nat; discriminate.
Qed.

Lemma hook_summary_entry event matcher jh e :
  e ∈ hook_summary event matcher jh ->
  hs_event e = event
  ∧ truthy (hs_matcher e) = true
  ∧ forall s, hs_command e = JStr s ->
      s <> EmptyString ∧ (String.length s <= 53)%nat.
Proof.
  unfold hook_summary. destruct (snd jh) as [| | | | |members];
    try (intros H; by apply elem_of_nil in H).
  cbv zeta. destruct (truthy (default JNull (dict_get "command" members))) eqn:Ht;
    [|intros H; by apply elem_of_nil in H].
  destruct (shorten _) as [shown|x] eqn:Hs; [|intros H; by apply elem_of_nil in H].
  intros H. apply list_elem_of_singleton in H as ->. cbn [hs_event hs_matcher hs_command].
  split; [reflexivity|]. split.
  - unfold or_all_tools. destruct (truthy matcher) eqn:Hm; [exact Hm|reflexivity].
  - intros s ->. exact (shorten_string _ _ Ht Hs).
Qed.

(** X10: in a result of [validate_hooks], total_hooks is the length of
    hooks_summary, and every summary entry names an event of the document,
    has a matcher that is never empty ("All tools" stands in for an absent
    or empty one) and, when its command is a string, shows a non-empty
    command of at most 53 characters (50 and the ellipsis). *)
Theorem X10_summary_entries (members hooks : list (string * json)) (r : result) :
  dict_get "hooks" members = Some (JObj hooks) ->
  validate_hooks (JObj members) = Ok r ->
  exists hs,
    hooks_summary r = Some hs
    ∧ total_hooks r = Some (length hs)
    ∧ forall e, e ∈ hs ->
        hs_event e ∈ map fst hooks
        ∧ truthy (hs_matcher e) = true
        ∧ forall s, hs_command e = JStr s ->
            s <> EmptyString ∧ (String.length s <= 53)%nat.
Proof.
  intros Hh Hrun.
  destruct (validate_hooks_report _ _ _ Hh Hrun) as (_ & _ & Hs & Hn & _).
  eexists. split; [exact Hs|]. split; [exact Hn|]. intros e He.
  apply elem_of_flat_map_inv in He as ([event v] & Hev & He).
  unfold event_summary in He. cbn [fst snd] in He.
  destruct v as [| | | |groups|]; try (by apply elem_of_nil in He).
  apply elem_of_flat_map_inv in He as ([i g] & _ & He).
  unfold group_summary in He. cbn [fst snd] in He.
  destruct g as [| | | | |gm]; try (by apply elem_of_nil in He).
  destruct (dict_get "hooks" gm) as [[| | | |hook_list|]|];
    try (by apply elem_of_nil in He).
  apply elem_of_flat_map_inv in He as (jh & _ & He).
  apply hook_summary_entry in He as (-> & Hm & Hc).
  split; [|auto]. apply list_elem_of_fmap. exists (event, JArr groups). auto.
Qed.

Lemma X10_summary_entries_witness :
  exists hs,
    Some [ {| hs_event := "Stop"; hs_matcher := JStr "All tools";
              hs_command := JStr "git status" |} ] = Some hs
    ∧ Some 1%nat = Some (length hs)
    ∧ forall e, e ∈ hs ->
        hs_event e ∈ map fst [("Stop", JArr [JObj [("hooks",
                       JArr [JObj [("command", JStr "git status")]])]])]
        ∧ truthy (hs_matcher e) = true
        ∧ forall s, hs_command e = JStr s ->
            s <> EmptyString ∧ (String.length s <= 53)%nat.
Proof.
  exact (X10_summary_entries
    [("hooks", JObj [("Stop", JArr [JObj [("hooks",
                       JArr [JObj [("command", JStr "git status")]])]])])]
    [("Stop", JArr [JObj [("hooks", JArr [JObj [("command", JStr "git status")]])]])]
    _ eq_refl ltac:(vm_compute; reflexivity)).
Defined.




End ValidatorFurther.

(** ** The command line validator on well-shaped documents *)

Lemma file_group_typed hook_count i g :
  exists n, Cli.file_group hook_count (i, group_json g) = Ok n.
Proof.
  unfold Cli.file_group. cbn [snd].
  destruct (group_json_hooks g) as (members & -> & -> & _).
  apply for_each_total. intros n [j h] Hin.
  apply enumerate_from_elem, list_elem_of_fmap in Hin as (e & -> & _).
  unfold Cli.file_hook, entry_json. cbn [snd].
  cbn [dict_get String.eqb Ascii.eqb Bool.eqb default from_option id]. cbv zeta.
  destruct (truthy (JStr (he_command e))); eauto.
Qed.

Lemma file_events_typed (hooks : hooks_table) : forall hook_count,
  Cli.file_events (map event_json hooks) hook_count = Ok true.
Proof.
  induction hooks as [|[event groups] hooks IH]; intros hook_count; [reflexivity|].
  cbn [map event_json fst snd Cli.file_events].
  destruct (for_each_total Cli.file_group (enumerate (map group_json groups)))
    with (st := hook_count) as [n Hn].
  - intros m [i x] Hin.
    apply enumerate_from_elem, list_elem_of_fmap in Hin as (g & -> & _).
    apply file_group_typed.
  - rewrite Hn, bind_Ok. apply IH.
Qed.

Lemma display_hooks_typed (es : list hook_entry) :
  for_each Cli.display_hook (map entry_json es) () = Ok ().
Proof.
  induction es as [|e es IH]; [reflexivity|].
  rewrite map_cons, for_each_cons.
  replace (Cli.display_hook () (entry_json e)) with (Ok () : outcome unit)
    by reflexivity.
  rewrite bind_Ok. exact IH.
Qed.

Lemma display_group_typed g : Cli.display_group () (group_json g) = Ok ().
Proof.
  unfold Cli.display_group.
  destruct (group_json_hooks g) as (members & -> & Hh & _).
  unfold py_get. rewrite Hh, ?bind_Ok. cbn [default from_option id py_iter].
  rewrite ?bind_Ok. apply display_hooks_typed.
Qed.

Lemma display_groups_typed (groups : list hook_group) :
  for_each Cli.display_group (map group_json groups) () = Ok ().
Proof.
  induction groups as [|g groups IH]; [reflexivity|].
  rewrite map_cons, for_each_cons, display_group_typed, bind_Ok. exact IH.
Qed.

Lemma display_events_typed (hooks : hooks_table) :
  for_each Cli.display_event (map event_json hooks) () = Ok ().
Proof.
  induction hooks as [|[event groups] hooks IH]; [reflexivity|].
  rewrite map_cons, for_each_cons.
  replace (Cli.display_event () (event_json (event, groups)))
    with (for_each Cli.display_group (map group_json groups) ()) by reflexivity.
  rewrite display_groups_typed, bind_Ok. exact IH.
Qed.

Lemma display_typed (hooks : hooks_table) :
  Cli.display_hooks_summary (config_json hooks) = Ok ().
Proof.
  replace (Cli.display_hooks_summary (config_json hooks))
    with (for_each Cli.display_event (map event_json hooks) ()) by reflexivity.
  apply display_events_typed.
Qed.

(** X12: the command line validator accepts every document of the
    HooksConfig shape, whatever its contents: [validate_hooks_file] returns
    True, the summary is printed without an exception and the script exits
    with status 0, even for a document whose entries have empty commands,
    which the server's validator reports as an error. *)
Theorem X12_cli_accepts_shaped_documents :
  (forall hooks : hooks_table,
      Cli.validate_hooks_file (Cli.Parsed (config_json hooks)) = Ok true
      ∧ Cli.display_hooks_summary (config_json hooks) = Ok ()
      ∧ Cli.main [Cli.Parsed (config_json hooks)] = 0%nat)
  ∧ (exists v,
      Validate.validate_hooks
        (config_json [("Stop", [ {| hg_matcher := None;
                                    hg_hooks := [ {| he_type := "command";
                                                     he_command := "" |} ] |} ])])
      = Ok v
      ∧ Validate.status v = "error").
Proof.
  split.
  - intros hooks.
    assert (Hv : Cli.validate_hooks_file (Cli.Parsed (config_json hooks)) = Ok true).
    { unfold Cli.validate_hooks_file, config_json.
      cbn [dict_get String.eqb Ascii.eqb Bool.eqb]. apply file_events_typed. }
    split; [exact Hv|]. split; [apply display_typed|].
    unfold Cli.main, Cli.main_validate. rewrite Hv, display_typed. reflexivity.
  - eexists. split; vm_compute; reflexivity.
Qed.

(** ** The two conflict checks side by side *)

Section ConflictChecks.
Import Conflicts.

Lemma merge_check_group_sim event matchers cs g :
  Cli.merge_check_group matchers (0 <? length cs)%nat g
  = (cs' ← check_group event matchers cs g; Ok (0 <? length cs')%nat).
Proof.
  unfold Cli.merge_check_group, check_group.
  destruct (py_get g "matcher" (JStr "")) as [m|e]; [|reflexivity].
  rewrite !bind_Ok. destruct (truthy m); [|reflexivity].
  destruct (hash_key m) as [k|e]; [|reflexivity]. rewrite !bind_Ok.
  destruct (matchers !! k) as [existing|]; [|reflexivity].
  destruct (first_command g) as [c|e]; [|reflexivity].
  rewrite !bind_Ok, length_app. simpl. f_equal.
  destruct (length cs); reflexivity.
Qed.

Lemma merge_check_groups_sim event matchers gs : forall cs,
  for_each (Cli.merge_check_group matchers) gs (0 <? length cs)%nat
  = (cs' ← for_each (check_group event matchers) gs cs; Ok (0 <? length cs')%nat).
Proof.
  induction gs as [|g gs IH]; intros cs; [reflexivity|].
  rewrite !for_each_cons, (merge_check_group_sim event).
  destruct (check_group event matchers cs g) as [cs1|e]; [|reflexivity].
  rewrite !bind_Ok. apply IH.
Qed.

Lemma merge_check_event_sim idx cs entry :
  Cli.merge_check_event idx (0 <? length cs)%nat entry
  = (cs' ← check_event idx cs entry; Ok (0 <? length cs')%nat).
Proof.
  destruct entry as [event v]. unfold Cli.merge_check_event, check_event.
  destruct (idx !! event) as [matchers|]; [|reflexivity].
  destruct (py_iter v) as [gs|e]; [|reflexivity].
  rewrite !bind_Ok. apply merge_check_groups_sim.
Qed.

Lemma merge_check_events_sim idx items : forall cs,
  for_each (Cli.merge_check_event idx) items (0 <? length cs)%nat
  = (cs' ← for_each (check_event idx) items cs; Ok (0 <? length cs')%nat).
Proof.
  induction items as [|x items IH]; intros cs; [reflexivity|].
  rewrite !for_each_cons, merge_check_event_sim.
  destruct (check_event idx cs x) as [cs1|e]; [|reflexivity].
  rewrite !bind_Ok. apply IH.
Qed.

Lemma detect_merge_agrees existing_config new_config :
  Cli.detect_merge_conflicts (Cli.Parsed existing_config) (Cli.Parsed new_config)
  = (r ← detect_conflicts existing_config new_config; Ok (negb (has_conflicts r))).
Proof.
  unfold Cli.detect_merge_conflicts, detect_conflicts.
  destruct (py_get existing_config "hooks" (JObj [])) as [eh|e]; [|reflexivity].
  rewrite !bind_Ok.
  destruct (py_get new_config "hooks" (JObj [])) as [nh|e]; [|reflexivity].
  rewrite !bind_Ok.
  destruct (py_items eh) as [ei|e]; [|reflexivity]. rewrite !bind_Ok.
  destruct (for_each index_event ei ∅) as [idx|e]; [|reflexivity]. rewrite !bind_Ok.
  destruct (py_items nh) as [ni|e]; [|reflexivity]. rewrite !bind_Ok.
  change false with (0 <? length (@nil conflict))%nat.
  rewrite merge_check_events_sim.
  destruct (for_each (check_event idx) ni []) as [cs|e]; reflexivity.
Qed.

(** X13: the command line check and the server's detector agree on every
    pair of parsed documents, well formed or not: [detect_merge_conflicts]
    returns the negation of has_conflicts when [detect_conflicts] returns,
    and raises the same exception when it raises; so the script exits with
    status 0 exactly when the detector returns and reports no conflict. *)
Theorem X13_conflict_checks_agree (existing_config new_config : json) :
  Cli.detect_merge_conflicts (Cli.Parsed existing_config) (Cli.Parsed new_config)
  = (r ← detect_conflicts existing_config new_config; Ok (negb (has_conflicts r)))
  ∧ (Cli.main [Cli.Parsed existing_config; Cli.Parsed new_config] = 0%nat
     <-> exists r, detect_conflicts existing_config new_config = Ok r
                   ∧ has_conflicts r = false).
Proof.
  split; [apply detect_merge_agrees|].
  unfold Cli.main, Cli.main_merge. rewrite detect_merge_agrees.
  destruct (detect_conflicts existing_config new_config) as [r|e].
  - rewrite bind_Ok. destruct (has_conflicts r) eqn:Hc; simpl; split.
    + discriminate.
    + intros (r' & [= <-] & Hr'). congruence.
    + intros _. eauto.
    + reflexivity.
  - rewrite bind_Raise. split; [discriminate|]. intros (r & Hr & _). discriminate.
Qed.

Lemma check_events_unindexed idx items : forall cs,
  (forall event v, (event, v) ∈ items -> idx !! event = None) ->
  for_each (check_event idx) items cs = Ok cs.
Proof.
  induction items as [|[event v] items IH]; intros cs Hnone; [reflexivity|].
  rewrite for_each_cons.
  assert (Hstep : check_event idx cs (event, v) = Ok cs).
  { unfold check_event. rewrite (Hnone event v) by left. reflexivity. }
  rewrite Hstep, bind_Ok. apply IH. intros e x Hin. apply (Hnone e x). by right.
Qed.

(** X14: when the existing document has no "hooks" key, or an empty one,
    the detector reports no conflict for any new document whose "hooks" is
    an object, whatever that object holds: the groups of the new document
    are not even looked at, so malformed ones raise nothing. *)
Theorem X14_nothing_to_conflict_with
    (existing_members new_members new_hooks : list (string * json)) :
  dict_get "hooks" existing_members = None
  ∨ dict_get "hooks" existing_members = Some (JObj []) ->
  default (JObj []) (dict_get "hooks" new_members) = JObj new_hooks ->
  detect_conflicts (JObj existing_members) (JObj new_members)
  = Ok {| status := "success"; message := "No conflicts found";
          has_conflicts := false; conflicts := [] |}.
Proof.
  intros Hex Hnew. unfold detect_conflicts, py_get. rewrite !bind_Ok, Hnew.
  assert (He : default (JObj []) (dict_get "hooks" existing_members) = JObj [])
    by (destruct Hex as [-> | ->]; reflexivity).
  assert (Hloop : for_each (check_event ∅) new_hooks [] = Ok [])
    by (apply check_events_unindexed; intros; apply lookup_empty).
  rewrite He. cbn [py_items]. rewrite !bind_Ok. cbn [for_each].
  lazy beta iota delta [mbind outcome_bind].
  rewrite Hloop. reflexivity.
Qed.

Lemma X14_nothing_to_conflict_with_witness :
  detect_conflicts (JObj []) (JObj [("hooks", JObj [("Stop", JNum 3)])])
  = Ok {| status := "success"; message := "No conflicts found";
          has_conflicts := false; conflicts := [] |}.
Proof.
  apply (X14_nothing_to_conflict_with [] [("hooks", JObj [("Stop", JNum 3)])]
           [("Stop", JNum 3)]); [left|]; reflexivity.
Defined.

End ConflictChecks.
